(** * End-to-end TLS security profile scenario of the
      cluster-openshift-controller-manager-operator test suite

    The development embeds [testTLSSecurityProfilePropagation]
    (test/e2e, the [testing.TB] variant) and the poll-until-converged
    pattern it relies on.  The external collaborators (cluster API client,
    JSON decoder) appear as an environment of scripted answers; the test
    handle [t] is an explicit state that is threaded through every call. *)

From Stdlib Require Import ZArith QArith String Ascii List Lia Bool.
From stdpp Require Import base gmap strings list pretty.

Close Scope Q_scope.
Local Open Scope string_scope.
Local Open Scope list_scope.
Local Open Scope Z_scope.

(** ** Errors and durations *)

(** Go's [error] values.  [DeadlineExceeded] is [context.DeadlineExceeded],
    [InvalidInput] is the poller's rejection of a non-positive interval or
    deadline, [Err] is any other error, carried with its text. *)
Inductive error : Type :=
  | DeadlineExceeded
  | InvalidInput
  | Err (msg : string).

(** [err.Error()], what [%v] prints for an error. *)
Definition Error (e : error) : string :=
  match e with
  | DeadlineExceeded => "context deadline exceeded"
  | InvalidInput => "invalid poll parameters"
  | Err msg => msg
  end.

(** [time.Duration] counts nanoseconds. *)
Definition Nanosecond : Z := 1.
Definition Second : Z := 1000000000 * Nanosecond.
Definition Minute : Z := 60 * Second.

(** ** The convergence poller *)

(** States of a poll session.  [Waiting], [Checking], [Converged] and
    [TimedOut] are the four states of the design; [Aborted] is the end of a
    session whose condition returned a non-nil error (the condition's
    signature is [func(ctx) (bool, error)]), [Rejected] is the fatal outcome
    of input validation. *)
Inductive Phase : Type :=
  | Waiting
  | Checking
  | Converged
  | TimedOut
  | Aborted (e : error)
  | Rejected.

Definition terminal (p : Phase) : bool :=
  match p with
  | Waiting | Checking => false
  | _ => true
  end.

(** The [(converged, err)] pair a phase stands for. *)
Definition converged (p : Phase) : bool :=
  match p with
  | Converged => true
  | _ => false
  end.

Definition sessionErr (p : Phase) : option error :=
  match p with
  | TimedOut => Some DeadlineExceeded
  | Aborted e => Some e
  | Rejected => Some InvalidInput
  | Waiting | Checking | Converged => None
  end.

Section Poller.
Context {W : Type}.

(** A condition reads the external system at the given time since the
    start of the session; [W] is whatever state the call site threads
    through (here: the test handle and its log). *)
Definition ConditionFunc : Type := Z -> W -> (bool * option error) * W.

Record Session : Type := mkSession {
  phase : Phase;
  elapsed : Z;
  checks : nat;
  world : W
}.

Variables (interval timeout : Z) (condition : ConditionFunc).

(** Modelled from the spec: the transition function of
    [wait.PollUntilContextTimeout] (vendored k8s.io/apimachinery, absent
    from the sources), after the state machine of the Convergence Poller:
    Waiting to Checking on each tick, Checking to Converged when the
    predicate is true, Checking to Waiting when it is false and the
    deadline is not reached, Checking or Waiting to TimedOut when the
    elapsed time reaches the deadline.  Evaluating the condition takes no
    time; terminal states do not move. *)
Definition step (s : Session) : Session :=
  match phase s with
  | Waiting =>
      if timeout <=? elapsed s + interval
      then mkSession TimedOut (Z.max (elapsed s) timeout) (checks s) (world s)
      else mkSession Checking (elapsed s + interval) (checks s) (world s)
  | Checking =>
      if timeout <=? elapsed s
      then mkSession TimedOut (elapsed s) (checks s) (world s)
      else
        let '(ok, err, w) := condition (elapsed s) (world s) in
        match err with
        | Some e => mkSession (Aborted e) (elapsed s) (S (checks s)) w
        | None =>
            if ok
            then mkSession Converged (elapsed s) (S (checks s)) w
            else mkSession Waiting (elapsed s) (S (checks s)) w
        end
  | _ => s
  end.

Fixpoint run (fuel : nat) (s : Session) : Session :=
  match fuel with
  | O => s
  | S fuel' => run fuel' (step s)
  end.

(** Two transitions per tick, and at most [(timeout - 1) / interval]
    ticks fall strictly before the deadline. *)
Definition pollFuel : nat :=
  (2 * Z.to_nat ((timeout - 1) / interval) + 2)%nat.

Definition start (immediate : bool) (w : W) : Session :=
  mkSession (if immediate then Checking else Waiting) 0 0%nat w.

End Poller.

Arguments Session : clear implicits.
Arguments ConditionFunc : clear implicits.

(** Modelled from the spec: [wait.PollUntilContextTimeout(ctx, interval,
    timeout, immediate, condition)] (vendored k8s.io/apimachinery, absent
    from the sources), after the contract
    [PollUntilConverged(interval, deadline, immediate, predicate)]: the
    inputs must be positive, the first check happens at once or after one
    interval, and the session runs its state machine to a terminal state.
    The context of the scenario is never cancelled from outside and is left
    out.  The result is the final session; [converged] and [sessionErr] of
    its phase are the pair the contract returns. *)
Definition PollUntilContextTimeout {W : Type} (interval timeout : Z)
    (immediate : bool) (condition : ConditionFunc W) (w : W) : Session W :=
  if (interval <=? 0) || (timeout <=? 0)
  then mkSession Rejected 0 0%nat w
  else run interval timeout condition (pollFuel interval timeout)
         (start immediate w).

(** ** API objects (github.com/openshift/api/config/v1 and operator/v1) *)

Definition OperatorAvailable : string := "Available".
Definition OperatorProgressing : string := "Progressing".
Definition OperatorDegraded : string := "Degraded".
Definition ConditionTrue : string := "True".
Definition ConditionFalse : string := "False".
Definition ConditionUnknown : string := "Unknown".

Record ClusterOperatorStatusCondition : Type := {
  CondType : string;
  Status : string;
  Reason : string;
  Message : string
}.

(** Only [co.Status.Conditions] is read. *)
Record ClusterOperator : Type := {
  Conditions : list ClusterOperatorStatusCondition
}.

(** Only [cfg.Spec.ObservedConfig.Raw] is read: the bytes of the embedded
    JSON document. *)
Record OpenShiftControllerManager : Type := {
  ObservedConfigRaw : string
}.

Definition TLSProfileOldType : string := "Old".
Definition TLSProfileIntermediateType : string := "Intermediate".
Definition TLSProfileModernType : string := "Modern".
Definition TLSProfileCustomType : string := "Custom".

Record TLSProfileSpec : Type := {
  Ciphers : list string;
  MinTLSVersion : string
}.

(** The pointer fields are options; [Old], [Intermediate] and [Modern]
    point to empty structs. *)
Record TLSSecurityProfile : Type := {
  ProfileType : string;
  Old : option unit;
  Intermediate : option unit;
  Modern : option unit;
  Custom : option TLSProfileSpec
}.

(** Only [apiServer.Spec.TLSSecurityProfile] is read and written. *)
Record APIServer : Type := {
  SpecTLSSecurityProfile : option TLSSecurityProfile
}.

(** The minimum protocol version a profile stands for: the fixed versions
    of the predefined profile types of openshift/api, the declared one of a
    custom profile. *)
Definition profileMinTLSVersion (p : TLSSecurityProfile) : option string :=
  if String.eqb (ProfileType p) TLSProfileCustomType
  then option_map MinTLSVersion (Custom p)
  else if String.eqb (ProfileType p) TLSProfileOldType then Some "VersionTLS10"
  else if String.eqb (ProfileType p) TLSProfileIntermediateType then Some "VersionTLS12"
  else if String.eqb (ProfileType p) TLSProfileModernType then Some "VersionTLS13"
  else None.

(** ** The test handle *)

(** What [t.Cleanup] registers: the scenario has one cleanup closure, which
    captures the saved profile. *)
Inductive CleanupFn : Type :=
  | RestoreTLSProfile (originalTLSProfile : option TLSSecurityProfile).

(** [testing.TB] as the scenario uses it: the log, the recorded assertion
    failures (message and unexpected error), the registered cleanups. *)
Record TB : Type := mkTB {
  logs : list string;
  failures : list (string * error);
  cleanups : list CleanupFn
}.

Definition newTB : TB := mkTB [] [] [].

Definition Failed (t : TB) : bool :=
  match failures t with
  | [] => false
  | _ :: _ => true
  end.

(** [t.Log] and [t.Logf], given the formatted line. *)
Definition Log (line : string) (t : TB) : TB :=
  mkTB (logs t ++ [line]) (failures t) (cleanups t).

Definition Cleanup (f : CleanupFn) (t : TB) : TB :=
  mkTB (logs t) (failures t) (f :: cleanups t).

(** The body of a test: a state monad over the handle whose computations
    may stop the test function ([t.FailNow]); [None] is the stop. *)
Definition T (A : Type) : Type := TB -> option A * TB.

Definition ret {A} (a : A) : T A := fun t => (Some a, t).

Definition bind {A B} (c : T A) (k : A -> T B) : T B :=
  fun t =>
    match c t with
    | (Some a, t') => k a t'
    | (None, t') => (None, t')
    end.

Definition lift (f : TB -> TB) : T unit := fun t => (Some tt, f t).

Notation "x <- c ;; k" := (bind c (fun x => k))
  (at level 100, c at next level, right associativity, only parsing).
Notation "c ;;; k" := (bind c (fun _ => k))
  (at level 100, right associativity, only parsing).

(** [require.NoError(t, err, msg)]: records the failure and stops the test
    when [err] is not nil. *)
Definition requireNoError (err : option error) (msg : string) : T unit :=
  fun t =>
    match err with
    | None => (Some tt, t)
    | Some e => (None, mkTB (logs t) (failures t ++ [(msg, e)]) (cleanups t))
    end.

(** Go's [%v] for the values the scenario prints. *)
Definition fmtBool (b : bool) : string := if b then "true" else "false".

Definition fmtStrings (l : list string) : string :=
  "[" +:+ String.concat " " l +:+ "]".

Definition fmtInt (n : nat) : string := pretty n.

(** ** Decoded JSON and the [unstructured] accessors *)

(** The dynamic values [json.Unmarshal] stores in an [interface{}]: nil,
    bool, float64 (finite, hence a rational), string, [[]interface{}] and
    [map[string]interface{}]. *)
#[warnings="-register-all"]
Inductive JSON : Type :=
  | JNull
  | JBool (b : bool)
  | JNumber (q : Q)
  | JString (s : string)
  | JArray (l : list JSON)
  | JObject (m : gmap string JSON).

(** The text of the accessor errors is not reproduced. *)
Definition accessorError : error := Err "accessor error".

(** [unstructured.NestedFieldNoCopy]: walks the path; a nil on the way or a
    missing key is "not found", a value on the way that is not a map is an
    error. *)
Fixpoint NestedFieldNoCopy (val : JSON) (fields : list string)
  : JSON * bool * option error :=
  match fields with
  | [] => (val, true, None)
  | field :: rest =>
      match val with
      | JNull => (JNull, false, None)
      | JObject m =>
          match m !! field with
          | Some v => NestedFieldNoCopy v rest
          | None => (JNull, false, None)
          end
      | _ => (JNull, false, Some accessorError)
      end
  end.

(** [unstructured.NestedString]. *)
Definition NestedString (obj : gmap string JSON) (fields : list string)
  : string * bool * option error :=
  match NestedFieldNoCopy (JObject obj) fields with
  | (_, found, Some e) => ("", found, Some e)
  | (_, false, None) => ("", false, None)
  | (JString s, true, None) => (s, true, None)
  | (_, true, None) => ("", false, Some accessorError)
  end.

(** [unstructured.NestedMap]. *)
Definition NestedMap (obj : gmap string JSON) (fields : list string)
  : gmap string JSON * bool * option error :=
  match NestedFieldNoCopy (JObject obj) fields with
  | (_, found, Some e) => (∅, found, Some e)
  | (_, false, None) => (∅, false, None)
  | (JObject m, true, None) => (m, true, None)
  | (_, true, None) => (∅, false, Some accessorError)
  end.

(** The loop of [NestedStringSlice] over the elements: every element must
    be a string. *)
Fixpoint stringsOf (l : list JSON) : option (list string) :=
  match l with
  | [] => Some []
  | JString s :: l' =>
      match stringsOf l' with
      | Some r => Some (s :: r)
      | None => None
      end
  | _ :: _ => None
  end.

(** [unstructured.NestedStringSlice]. *)
Definition NestedStringSlice (obj : gmap string JSON) (fields : list string)
  : list string * bool * option error :=
  match NestedFieldNoCopy (JObject obj) fields with
  | (_, found, Some e) => ([], found, Some e)
  | (_, false, None) => ([], false, None)
  | (JArray l, true, None) =>
      match stringsOf l with
      | Some r => (r, true, None)
      | None => ([], false, Some accessorError)
      end
  | (_, true, None) => ([], false, Some accessorError)
  end.

(** [strings.Contains(s, substr)]: [substr] starts at some position of
    [s]. *)
Fixpoint Contains (s substr : string) : bool :=
  String.prefix substr s ||
  match s with
  | EmptyString => false
  | String _ s' => Contains s' substr
  end.

(** A name between double quotes, as in the Go literal for a quoted key. *)
Definition quoted (name : string) : string :=
  String (ascii_of_nat 34) name +:+ String (ascii_of_nat 34) EmptyString.

(** ** The environment of the scenario *)

(** The answers of the external collaborators, one script per call site.
    A [Get] inside a poll session is indexed by the time elapsed since the
    session started; [jsonUnmarshal] is [json.Unmarshal] into a
    [map[string]interface{}]. *)
Record Env : Type := {
  newClientsetErr : option error;
  ensureStatusErr : option error;
  getAPIServer : error + APIServer;
  updateAPIServer : APIServer -> option error;
  getAPIServerCleanup : error + APIServer;
  updateAPIServerCleanup : APIServer -> option error;
  progressingCO : Z -> error + ClusterOperator;
  reconcileCO : Z -> error + ClusterOperator;
  verifyCfg : Z -> error + OpenShiftControllerManager;
  cleanupCO : Z -> error + ClusterOperator;
  cleanupCfg : Z -> error + OpenShiftControllerManager;
  jsonUnmarshal : string -> error + gmap string JSON
}.

(** ** The conditions of the five poll sessions *)

Definition isType (c : ClusterOperatorStatusCondition) (ty st : string) : bool :=
  String.eqb (CondType c) ty && String.eqb (Status c) st.

(** Lines 169-182: the operator started progressing. *)
Definition startedProgressingCondition (env : Env) : ConditionFunc TB :=
  fun now t =>
    match progressingCO env now with
    | inl err =>
        ((false, None), Log ("error getting clusteroperator: " +:+ Error err) t)
    | inr co =>
        match find (fun c => isType c OperatorProgressing ConditionTrue)
                (Conditions co) with
        | Some c =>
            ((true, None),
             Log ("Operator is now progressing, reason: " +:+ Reason c) t)
        | None => ((false, None), t)
        end
    end.

(** The three flags of the reconciliation loop, lines 197-211. *)
Record Flags : Type := mkFlags {
  isAvailable : bool;
  isProgressing : bool;
  isDegraded : bool
}.

Definition scanCondition (f : Flags) (c : ClusterOperatorStatusCondition) : Flags :=
  let f1 := if isType c OperatorAvailable ConditionTrue
            then mkFlags true (isProgressing f) (isDegraded f) else f in
  let f2 := if isType c OperatorProgressing ConditionFalse
            then mkFlags (isAvailable f1) false (isDegraded f1) else f1 in
  if isType c OperatorDegraded ConditionTrue
  then mkFlags (isAvailable f2) (isProgressing f2) true else f2.

Definition scanConditions (conds : list ClusterOperatorStatusCondition) : Flags :=
  fold_left scanCondition conds (mkFlags false true false).

(** Lines 190-225: reconciliation complete. *)
Definition reconciledCondition (env : Env) : ConditionFunc TB :=
  fun now t =>
    match reconcileCO env now with
    | inl err =>
        ((false, None), Log ("error getting clusteroperator: " +:+ Error err) t)
    | inr co =>
        let f := scanConditions (Conditions co) in
        if isDegraded f
        then ((false, None), Log "Warning: operator is degraded" t)
        else if isAvailable f && negb (isProgressing f)
        then ((true, None), Log "Operator reconciliation complete" t)
        else ((false, None),
              Log ("Operator still reconciling, available=" +:+ fmtBool (isAvailable f)
                   +:+ ", progressing=" +:+ fmtBool (isProgressing f)) t)
    end.

Definition expectedCiphers : list string :=
  [ "TLS_AES_128_GCM_SHA256";
    "TLS_AES_256_GCM_SHA384";
    "TLS_CHACHA20_POLY1305_SHA256" ].

(** Lines 293-296: the set of observed ciphers, a [map[string]bool]. *)
Definition cipherSetOf (cipherSuites : list string) : gmap string bool :=
  fold_left (fun m cipher => <[cipher := true]> m) cipherSuites ∅.

(** Indexing a [map[string]bool]: the zero value for a missing key. *)
Definition mapIndex (m : gmap string bool) (k : string) : bool :=
  default false (m !! k).

Definition isSome {A} (o : option A) : bool :=
  match o with
  | Some _ => true
  | None => false
  end.

(** Lines 230-308: the Modern profile reached the observed config. *)
Definition observedConfigCondition (env : Env) : ConditionFunc TB :=
  fun now t =>
    match verifyCfg env now with
    | inl err =>
        ((false, None),
         Log ("error getting openshift controller manager config: " +:+ Error err) t)
    | inr cfg =>
        let observed := ObservedConfigRaw cfg in
        let hasTLSVersion := Contains observed (quoted "minTLSVersion") in
        let hasCipherSuites := Contains observed (quoted "cipherSuites") in
        if negb hasTLSVersion || negb hasCipherSuites
        then ((false, None),
              Log ("TLS config not yet observed in config: " +:+ observed) t)
        else
          let t := Log ("TLS config successfully observed: " +:+ observed) t in
          match jsonUnmarshal env (ObservedConfigRaw cfg) with
          | inl err =>
              ((false, None),
               Log ("failed to unmarshal observed config: " +:+ Error err) t)
          | inr observedConfig =>
              let '(_, found, err) := NestedMap observedConfig ["servingInfo"] in
              if isSome err || negb found
              then ((false, None), Log "servingInfo not found in observed config" t)
              else
                let '(minTLSVersion, found, err) :=
                  NestedString observedConfig ["servingInfo"; "minTLSVersion"] in
                if isSome err || negb found || String.eqb minTLSVersion ""
                then ((false, None),
                      Log ("minTLSVersion not properly set, found=" +:+ fmtBool found
                           +:+ ", value=" +:+ minTLSVersion) t)
                else if negb (String.eqb minTLSVersion "VersionTLS13")
                then ((false, None),
                      Log ("minTLSVersion not VersionTLS13 yet, got=" +:+ minTLSVersion
                           +:+ ", expected=VersionTLS13") t)
                else
                  let '(cipherSuites, found, err) :=
                    NestedStringSlice observedConfig ["servingInfo"; "cipherSuites"] in
                  if isSome err || negb found || (length cipherSuites =? 0)%nat
                  then ((false, None),
                        Log ("cipherSuites not properly set, found=" +:+ fmtBool found
                             +:+ ", count=" +:+ fmtInt (length cipherSuites)) t)
                  else
                    let cipherSet := cipherSetOf cipherSuites in
                    match find (fun expected => negb (mapIndex cipherSet expected))
                            expectedCiphers with
                    | Some expected =>
                        ((false, None),
                         Log ("expected cipher suite not found yet: " +:+ expected
                              +:+ ", got: " +:+ fmtStrings cipherSuites) t)
                    | None =>
                        ((true, None),
                         Log ("Validated Modern TLS config: minTLSVersion=" +:+ minTLSVersion
                              +:+ ", cipherSuites=" +:+ fmtStrings cipherSuites) t)
                    end
          end
    end.

(** The two flags of the cleanup reconciliation loop, lines 92-102. *)
Definition scanCleanupCondition (f : bool * bool)
    (c : ClusterOperatorStatusCondition) : bool * bool :=
  let f1 := if isType c OperatorAvailable ConditionTrue then (true, snd f) else f in
  if isType c OperatorProgressing ConditionFalse then (fst f1, false) else f1.

(** Lines 85-110: the operator reconciled the restoration. *)
Definition cleanupReconciledCondition (env : Env) : ConditionFunc TB :=
  fun now t =>
    match cleanupCO env now with
    | inl err =>
        ((false, None),
         Log ("error getting clusteroperator during cleanup: " +:+ Error err) t)
    | inr co =>
        let '(isAvailable, isProgressing) :=
          fold_left scanCleanupCondition (Conditions co) (false, true) in
        if isAvailable && negb isProgressing
        then ((true, None), Log "Operator reconciliation after restoration complete" t)
        else ((false, None), t)
    end.

(** Lines 118-161: the observed config left the Modern profile. *)
Definition restoredCondition (env : Env)
    (originalTLSProfile : option TLSSecurityProfile) : ConditionFunc TB :=
  fun now t =>
    match cleanupCfg env now with
    | inl err =>
        ((false, None),
         Log ("error getting openshift controller manager config during cleanup verification: "
              +:+ Error err) t)
    | inr cfg =>
        match jsonUnmarshal env (ObservedConfigRaw cfg) with
        | inl err =>
            ((false, None),
             Log ("failed to unmarshal observed config during cleanup: " +:+ Error err) t)
        | inr observedConfig =>
            let '(minTLSVersion, found, err) :=
              NestedString observedConfig ["servingInfo"; "minTLSVersion"] in
            match err with
            | Some e =>
                ((false, None),
                 Log ("error reading minTLSVersion during cleanup: " +:+ Error e) t)
            | None =>
                let waiting :=
                  ((false, None),
                   Log ("Waiting for TLS profile restoration to propagate, current: "
                        +:+ minTLSVersion) t) in
                match originalTLSProfile with
                | None =>
                    if found && String.eqb minTLSVersion "VersionTLS12"
                    then ((true, None),
                          Log ("TLS profile restored to default: " +:+ minTLSVersion) t)
                    else if negb found || String.eqb minTLSVersion ""
                    then ((true, None),
                          Log "TLS profile restored to cluster defaults (no explicit TLS version)" t)
                    else waiting
                | Some _ =>
                    if found && negb (String.eqb minTLSVersion "VersionTLS13")
                    then ((true, None),
                          Log ("TLS profile restored from Modern: " +:+ minTLSVersion) t)
                    else waiting
                end
            end
        end
    end.

(** ** The scenario *)

(** [apiServer.Spec.TLSSecurityProfile = p]. *)
Definition setTLSSecurityProfile (apiServer : APIServer)
    (p : option TLSSecurityProfile) : APIServer :=
  {| SpecTLSSecurityProfile := p |}.

Definition modernProfile : TLSSecurityProfile :=
  {| ProfileType := TLSProfileModernType;
     Old := None; Intermediate := None; Modern := Some tt; Custom := None |}.

(** Lines 70-165: the cleanup closure.  It only logs. *)
Definition restoreTLSProfile (env : Env)
    (originalTLSProfile : option TLSSecurityProfile) (t : TB) : TB :=
  let t := Log "Restoring original TLS profile" t in
  match getAPIServerCleanup env with
  | inl err => Log ("failed to get APIServer for cleanup: " +:+ Error err) t
  | inr apiServer =>
      let apiServer := setTLSSecurityProfile apiServer originalTLSProfile in
      match updateAPIServerCleanup env apiServer with
      | Some err => Log ("failed to restore original TLS profile: " +:+ Error err) t
      | None =>
          let t := Log "Waiting for operator to reconcile TLS profile restoration" t in
          let s := PollUntilContextTimeout (10 * Second) (10 * Minute) true
                     (cleanupReconciledCondition env) t in
          let t := world s in
          match sessionErr (phase s) with
          | Some err =>
              Log ("operator did not complete reconciliation after restoration: "
                   +:+ Error err) t
          | None =>
              let t := Log "Verifying TLS profile was restored correctly" t in
              let s := PollUntilContextTimeout (5 * Second) (2 * Minute) true
                         (restoredCondition env originalTLSProfile) t in
              let t := world s in
              match sessionErr (phase s) with
              | Some err =>
                  Log ("TLS profile was not properly restored in observed config: "
                       +:+ Error err) t
              | None => t
              end
          end
      end
  end.

(** Modelled from the spec: [framework.MustNewClientset] (test/framework,
    absent from the sources): a setup error, here that no client can be
    obtained, is fatal to the test case and reported immediately. *)
Definition MustNewClientset (env : Env) : T unit :=
  requireNoError (newClientsetErr env) "failed to create clientset".

(** Modelled from the spec: [framework.MustEnsureClusterOperatorStatusIsSet]
    (test/framework, absent from the sources): a setup error, here that the
    operator never reports its status, is fatal to the test case and
    reported immediately. *)
Definition MustEnsureClusterOperatorStatusIsSet (env : Env) : T unit :=
  requireNoError (ensureStatusErr env) "clusteroperator status is not set".

(** A call that returns a value and an error, followed by
    [require.NoError] on the error. *)
Definition requireValue {A} (r : error + A) (msg : string) : T A :=
  match r with
  | inl err => bind (requireNoError (Some err) msg) (fun _ => fun t => (None, t))
  | inr a => bind (requireNoError None msg) (fun _ => ret a)
  end.

(** One poll session inside the test body: the session error is the value,
    the handle is the world. *)
Definition poll (interval timeout : Z) (immediate : bool)
    (condition : ConditionFunc TB) : T (option error) :=
  fun t =>
    let s := PollUntilContextTimeout interval timeout immediate condition t in
    (Some (sessionErr (phase s)), world s).

Definition msgReconcile : string := "operator did not complete reconciliation".

Definition msgPropagated : string :=
  "Modern TLS security profile from APIServer was not propagated to OpenShift Controller Manager observed config".

(** Lines 45-311: the body of [testTLSSecurityProfilePropagation]. *)
Definition testBody (env : Env) : T unit :=
  MustNewClientset env ;;;
  MustEnsureClusterOperatorStatusIsSet env ;;;
  apiServer <- requireValue (getAPIServer env) "failed to get APIServer config" ;;
  let originalTLSProfile := SpecTLSSecurityProfile apiServer in
  let apiServer := setTLSSecurityProfile apiServer (Some modernProfile) in
  requireNoError (updateAPIServer env apiServer)
    "failed to update APIServer TLS profile to Modern" ;;;
  lift (Cleanup (RestoreTLSProfile originalTLSProfile)) ;;;
  lift (Log "Waiting for operator to detect TLS profile change and start progressing") ;;;
  err <- poll (5 * Second) (5 * Minute) true (startedProgressingCondition env) ;;
  match err with
  | Some e =>
      lift (Log ("Warning: operator did not start progressing within 5 minutes, continuing anyway: "
                 +:+ Error e))
  | None => ret tt
  end ;;;
  lift (Log "Waiting for operator to complete reconciliation (may take up to 15 minutes)") ;;;
  err <- poll (10 * Second) (15 * Minute) true (reconciledCondition env) ;;
  requireNoError err msgReconcile ;;;
  lift (Log "Verifying TLS config in observed config") ;;;
  err <- poll (5 * Second) (2 * Minute) true (observedConfigCondition env) ;;
  requireNoError err msgPropagated.

Definition runCleanup (env : Env) (f : CleanupFn) (t : TB) : TB :=
  match f with
  | RestoreTLSProfile originalTLSProfile => restoreTLSProfile env originalTLSProfile t
  end.

(** The registered cleanups run after the body, last registered first,
    whether the body stopped or not. *)
Definition runCleanups (env : Env) (t : TB) : TB :=
  fold_left (fun t f => runCleanup env f t) (cleanups t) t.

(** [testTLSSecurityProfilePropagation(t)] on a fresh handle. *)
Definition testTLSSecurityProfilePropagation (env : Env) : TB :=
  runCleanups env (snd (testBody env newTB)).

(** ** The poll sessions of the scenario *)

(** The five call sites of [wait.PollUntilContextTimeout], in the order of
    the source text of the primary flow and of the cleanup. *)
Inductive SessionId : Type :=
  | StartedProgressing
  | Reconciled
  | ObservedConfig
  | CleanupReconciled
  | Restored.

Definition primary (k : SessionId) : bool :=
  match k with
  | StartedProgressing | Reconciled | ObservedConfig => true
  | CleanupReconciled | Restored => false
  end.

Definition sessionInterval (k : SessionId) : Z :=
  match k with
  | StartedProgressing => 5 * Second
  | Reconciled => 10 * Second
  | ObservedConfig => 5 * Second
  | CleanupReconciled => 10 * Second
  | Restored => 5 * Second
  end.

Definition sessionTimeout (k : SessionId) : Z :=
  match k with
  | StartedProgressing => 5 * Minute
  | Reconciled => 15 * Minute
  | ObservedConfig => 2 * Minute
  | CleanupReconciled => 10 * Minute
  | Restored => 2 * Minute
  end.

Definition sessionCondition (env : Env)
    (originalTLSProfile : option TLSSecurityProfile) (k : SessionId)
  : ConditionFunc TB :=
  match k with
  | StartedProgressing => startedProgressingCondition env
  | Reconciled => reconciledCondition env
  | ObservedConfig => observedConfigCondition env
  | CleanupReconciled => cleanupReconciledCondition env
  | Restored => restoredCondition env originalTLSProfile
  end.

Definition runSession (env : Env)
    (originalTLSProfile : option TLSSecurityProfile) (k : SessionId) (t : TB)
  : Session TB :=
  PollUntilContextTimeout (sessionInterval k) (sessionTimeout k) true
    (sessionCondition env originalTLSProfile k) t.

(** The error a primary session ends with.  It does not depend on the
    handle the session starts from ([session_outcome_any_handle]). *)
Definition sessionOutcome (env : Env) (k : SessionId) : option error :=
  sessionErr (phase (runSession env None k newTB)).

Definition isErr {A} (r : error + A) : bool :=
  match r with
  | inl _ => true
  | inr _ => false
  end.

(** The fetch of session [k] at time [now] fails: the [Get] fails, or the
    observed config does not decode, or reading one of its fields is an
    accessor error. *)
Definition fetchFails (env : Env) (k : SessionId) (now : Z) : bool :=
  match k with
  | StartedProgressing => isErr (progressingCO env now)
  | Reconciled => isErr (reconcileCO env now)
  | CleanupReconciled => isErr (cleanupCO env now)
  | ObservedConfig =>
      match verifyCfg env now with
      | inl _ => true
      | inr cfg =>
          match jsonUnmarshal env (ObservedConfigRaw cfg) with
          | inl _ => true
          | inr obj =>
              isSome (snd (NestedMap obj ["servingInfo"]))
              || isSome (snd (NestedString obj ["servingInfo"; "minTLSVersion"]))
              || isSome (snd (NestedStringSlice obj ["servingInfo"; "cipherSuites"]))
          end
      end
  | Restored =>
      match cleanupCfg env now with
      | inl _ => true
      | inr cfg =>
          match jsonUnmarshal env (ObservedConfigRaw cfg) with
          | inl _ => true
          | inr obj => isSome (snd (NestedString obj ["servingInfo"; "minTLSVersion"]))
          end
      end
  end.

(** The first failing setup step of the body, with its message. *)
Definition setupFailure (env : Env) : option (string * error) :=
  match newClientsetErr env with
  | Some e => Some ("failed to create clientset", e)
  | None =>
      match ensureStatusErr env with
      | Some e => Some ("clusteroperator status is not set", e)
      | None =>
          match getAPIServer env with
          | inl e => Some ("failed to get APIServer config", e)
          | inr apiServer =>
              match updateAPIServer env
                      (setTLSSecurityProfile apiServer (Some modernProfile)) with
              | Some e => Some ("failed to update APIServer TLS profile to Modern", e)
              | None => None
              end
          end
      end
  end.

(** The failures the scenario records, from the setup and from the
    outcomes of the reconciliation and verification sessions. *)
Definition expectedFailures (env : Env) : list (string * error) :=
  match setupFailure env with
  | Some f => [f]
  | None =>
      match sessionOutcome env Reconciled with
      | Some e => [(msgReconcile, e)]
      | None =>
          match sessionOutcome env ObservedConfig with
          | Some e => [(msgPropagated, e)]
          | None => []
          end
      end
  end.

(** ** The statements of the specification about the two verification
    predicates, in its own words *)

(** "The serving section reports the expected version string and cipher
    list", the cipher list as a subset check: all required ciphers present,
    extras tolerated. *)
Definition specReportsModern (obj : gmap string JSON) : bool :=
  match NestedString obj ["servingInfo"; "minTLSVersion"] with
  | (minTLSVersion, true, None) =>
      String.eqb minTLSVersion "VersionTLS13"
      && match NestedStringSlice obj ["servingInfo"; "cipherSuites"] with
         | (cipherSuites, true, None) =>
             forallb (fun expected => existsb (String.eqb expected) cipherSuites)
               expectedCiphers
         | _ => false
         end
  | _ => false
  end.

(** "The serving section no longer reports the highest-profile marker
    version, or reports no explicit version at all", whatever the saved
    profile. *)
Definition specRestored (minTLSVersion : string) (found : bool) : bool :=
  (found && negb (String.eqb minTLSVersion "VersionTLS13"))
  || negb found || String.eqb minTLSVersion "".

(** What the restoration predicate of the code accepts. *)
Definition restoredAccepts (originalTLSProfile : option TLSSecurityProfile)
    (minTLSVersion : string) (found : bool) : bool :=
  match originalTLSProfile with
  | None =>
      (found && String.eqb minTLSVersion "VersionTLS12")
      || negb found || String.eqb minTLSVersion ""
  | Some _ => found && negb (String.eqb minTLSVersion "VersionTLS13")
  end.

(** Some condition of the operator is [Degraded] with status [True]. *)
Definition degraded (co : ClusterOperator) : bool :=
  existsb (fun c => isType c OperatorDegraded ConditionTrue) (Conditions co).

(** ** Sample observations and environments *)

Definition mkCondition (ty st : string) : ClusterOperatorStatusCondition :=
  {| CondType := ty; Status := st; Reason := "AsExpected"; Message := "" |}.

Definition coSettled : ClusterOperator :=
  {| Conditions := [ mkCondition OperatorAvailable ConditionTrue;
                     mkCondition OperatorProgressing ConditionFalse;
                     mkCondition OperatorDegraded ConditionFalse ] |}.

Definition coProgressing : ClusterOperator :=
  {| Conditions := [ mkCondition OperatorAvailable ConditionTrue;
                     mkCondition OperatorProgressing ConditionTrue;
                     mkCondition OperatorDegraded ConditionFalse ] |}.

(** Available, not progressing, and degraded. *)
Definition coDegraded : ClusterOperator :=
  {| Conditions := [ mkCondition OperatorAvailable ConditionTrue;
                     mkCondition OperatorProgressing ConditionFalse;
                     mkCondition OperatorDegraded ConditionTrue ] |}.

Definition objServing (version : string) (ciphers : list string) : gmap string JSON :=
  {[ "servingInfo" :=
       JObject (<[ "minTLSVersion" := JString version ]>
                  {[ "cipherSuites" := JArray (map JString ciphers) ]}) ]}.

(** The text of a serving section, with the given spelling of the version
    key. *)
Definition rawServing (versionKey version : string) (ciphers : list string) : string :=
  "{" +:+ quoted "servingInfo" +:+ ":{" +:+ quoted versionKey +:+ ":" +:+ quoted version
  +:+ "," +:+ quoted "cipherSuites" +:+ ":[" +:+ String.concat "," (map quoted ciphers)
  +:+ "]}}".

Definition rawModern : string := rawServing "minTLSVersion" "VersionTLS13" expectedCiphers.

(** The same document with the letter T of the version key written as the
    JSON escape of its code point; a JSON decoder reads the same key. *)
Definition rawEscaped : string :=
  rawServing "min\u0054LSVersion" "VersionTLS13" expectedCiphers.

Definition rawTLS11 : string := rawServing "minTLSVersion" "VersionTLS11" [].

Definition rawTLS12 : string := rawServing "minTLSVersion" "VersionTLS12" [].

(** [json.Unmarshal] on the sample documents; the sample environments
    present no other text, and the table answers any other with a syntax
    error. *)
Definition sampleUnmarshal (raw : string) : error + gmap string JSON :=
  if String.eqb raw rawModern then inr (objServing "VersionTLS13" expectedCiphers)
  else if String.eqb raw rawEscaped then inr (objServing "VersionTLS13" expectedCiphers)
  else if String.eqb raw rawTLS11 then inr (objServing "VersionTLS11" [])
  else if String.eqb raw rawTLS12 then inr (objServing "VersionTLS12" [])
  else if String.eqb raw "{}" then inr ∅
  else inl (Err "invalid character").

Definition unavailable : error := Err "the server is currently unable to handle the request".

(** A cluster whose setup succeeds, with the given answers in the poll
    sessions (started progressing, reconciled and cleanup reconciled,
    observed config, restored config). *)
Definition sampleEnv (progressing reconcile : Z -> error + ClusterOperator)
    (verify restored : Z -> error + OpenShiftControllerManager) : Env :=
  {| newClientsetErr := None;
     ensureStatusErr := None;
     getAPIServer := inr {| SpecTLSSecurityProfile := None |};
     updateAPIServer := fun _ => None;
     getAPIServerCleanup := inr {| SpecTLSSecurityProfile := Some modernProfile |};
     updateAPIServerCleanup := fun _ => None;
     progressingCO := progressing;
     reconcileCO := reconcile;
     verifyCfg := verify;
     cleanupCO := reconcile;
     cleanupCfg := restored;
     jsonUnmarshal := sampleUnmarshal |}.

Definition cfgOf (raw : string) : Z -> error + OpenShiftControllerManager :=
  fun _ => inr {| ObservedConfigRaw := raw |}.

(** Everything converges at the first check. *)
Definition envSettled : Env :=
  sampleEnv (fun _ => inr coProgressing) (fun _ => inr coSettled)
    (cfgOf rawModern) (cfgOf rawTLS12).

(** Every [Get] of a poll session fails. *)
Definition envDown : Env :=
  sampleEnv (fun _ => inl unavailable) (fun _ => inl unavailable)
    (fun _ => inl unavailable) (fun _ => inl unavailable).

(** The operator is never seen progressing: it had settled before the
    first check. *)
Definition envNoProgress : Env :=
  sampleEnv (fun _ => inr coSettled) (fun _ => inr coSettled)
    (cfgOf rawModern) (cfgOf rawTLS12).

(** The operator stays degraded. *)
Definition envDegraded : Env :=
  sampleEnv (fun _ => inr coProgressing) (fun _ => inr coDegraded)
    (cfgOf rawModern) (cfgOf rawTLS12).

(** The observed config spells the version key with an escape. *)
Definition envEscaped : Env :=
  sampleEnv (fun _ => inr coProgressing) (fun _ => inr coSettled)
    (cfgOf rawEscaped) (cfgOf rawTLS12).

(** The restored config reports TLS 1.1. *)
Definition envTLS11 : Env :=
  sampleEnv (fun _ => inr coProgressing) (fun _ => inr coSettled)
    (cfgOf rawModern) (cfgOf rawTLS11).

(** The restored config has no serving section. *)
Definition envNoVersion : Env :=
  sampleEnv (fun _ => inr coProgressing) (fun _ => inr coSettled)
    (cfgOf rawModern) (cfgOf "{}").

(** A custom profile with TLS 1.2 as its minimum version. *)
Definition customTLS12 : TLSSecurityProfile :=
  {| ProfileType := TLSProfileCustomType;
     Old := None; Intermediate := None; Modern := None;
     Custom := Some {| Ciphers := ["ECDHE-ECDSA-AES128-GCM-SHA256"];
                       MinTLSVersion := "VersionTLS12" |} |}.

(** The warning of the body after a timeout of the started-progressing
    session. *)
Definition msgNoProgress : string :=
  "Warning: operator did not start progressing within 5 minutes, continuing anyway: context deadline exceeded".

(** A condition over a counter of invocations that holds from the given
    time on. *)
Definition holdsFrom (t0 : Z) : ConditionFunc nat :=
  fun now n => ((t0 <=? now, None), S n).

(** A condition that never holds. *)
Definition neverHolds : ConditionFunc nat :=
  fun _ n => ((false, None), S n).

(** ** Proof notions for the poller *)

(** Number of ticks that still fall strictly before the deadline, and the
    number of transitions a session can still make. *)
Definition ticksLeft (interval timeout e : Z) : nat :=
  Z.to_nat ((timeout - 1 - e) / interval).

Definition measure {W} (interval timeout : Z) (s : Session W) : nat :=
  match phase s with
  | Waiting => (2 * ticksLeft interval timeout (elapsed s) + 1)%nat
  | Checking => (2 * ticksLeft interval timeout (elapsed s) + 2)%nat
  | _ => 0%nat
  end.

(** Two sessions that differ at most in the world they carry. *)
Definition sameControl {W} (s s' : Session W) : Prop :=
  phase s = phase s' /\ elapsed s = elapsed s' /\ checks s = checks s'.

(** The invariant of a session whose condition never holds and never
    fails: it is still before the deadline, or it timed out at the
    deadline. *)
Definition pendingInv {W} (timeout : Z) (s : Session W) : Prop :=
  match phase s with
  | Waiting | Checking => 0 <= elapsed s < timeout
  | TimedOut => elapsed s = timeout
  | _ => False
  end.

(** The handle [t'] comes from [t] by writing to the log only: no failure
    was recorded, no cleanup registered. *)
Definition onlyLogged (t t' : TB) : Prop :=
  failures t' = failures t /\ cleanups t' = cleanups t /\
  exists lines, logs t' = logs t ++ lines.

(** ** Notions for the further properties *)

(** The cluster operator has a condition of the given type with the given
    status. *)
Definition hasCondition (ty st : string) (co : ClusterOperator) : bool :=
  existsb (fun c => isType c ty st) (Conditions co).

(** The same cluster operator with its conditions in another order. *)
Definition reordered (co co' : ClusterOperator) : Prop :=
  Conditions co ≡ₚ Conditions co'.

(** The settled operator with its conditions listed in reverse. *)
Definition coSettledReversed : ClusterOperator :=
  {| Conditions := rev (Conditions coSettled) |}.

Definition envSettledReversed : Env :=
  sampleEnv (fun _ => inr coSettledReversed) (fun _ => inr coSettledReversed)
    (cfgOf rawModern) (cfgOf rawTLS12).

(** An operator that reports no Progressing condition. *)
Definition coNoProgressing : ClusterOperator :=
  {| Conditions := [ mkCondition OperatorAvailable ConditionTrue;
                     mkCondition OperatorDegraded ConditionFalse ] |}.

Definition envNoProgressingCondition : Env :=
  sampleEnv (fun _ => inr coNoProgressing) (fun _ => inr coNoProgressing)
    (cfgOf rawModern) (cfgOf rawTLS12).

(** The observed config still reports the Modern profile after the
    restoration. *)
Definition envStillModern : Env :=
  sampleEnv (fun _ => inr coProgressing) (fun _ => inr coSettled)
    (cfgOf rawModern) (cfgOf rawModern).


(** ** The Ginkgo variant of the scenario (lines 338-603)

    The same scenario written against Ginkgo and Gomega: the steps are
    announced with [g.By], the conditions log through [g.GinkgoLogr], the
    assertions are [o.Expect(err).NotTo(o.HaveOccurred(), msg)] and the
    cleanup is registered with [g.DeferCleanup].  The spec context is taken
    as never cancelled, as the context of the first variant. *)

Module Ginkgo.

(** The values the scenario passes as [keysAndValues]. *)
Inductive LogValue : Type :=
  | VString (s : string)
  | VBool (b : bool)
  | VInt (n : nat)
  | VStrings (l : list string)
  | VError (e : error).

(** What the spec reports: [g.By(text)], [g.GinkgoLogr.Info(msg, kv...)]
    and [g.GinkgoLogr.Error(err, msg)]. *)
Inductive Entry : Type :=
  | EBy (text : string)
  | EInfo (msg : string) (keysAndValues : list (string * LogValue))
  | EError (err : error) (msg : string).

(** The running spec: its report, the failed expectations (message and
    unexpected error), the deferred cleanups. *)
Record Spec : Type := mkSpec {
  report : list Entry;
  specFailures : list (string * error);
  deferred : list CleanupFn
}.

Definition newSpec : Spec := mkSpec [] [] [].

Definition emit (e : Entry) (g : Spec) : Spec :=
  mkSpec (report g ++ [e]) (specFailures g) (deferred g).

Definition By (text : string) : Spec -> Spec := emit (EBy text).

Definition Info (msg : string) (keysAndValues : list (string * LogValue))
  : Spec -> Spec := emit (EInfo msg keysAndValues).

Definition LogError (err : error) (msg : string) : Spec -> Spec :=
  emit (EError err msg).

Definition DeferCleanup (f : CleanupFn) (g : Spec) : Spec :=
  mkSpec (report g) (specFailures g) (f :: deferred g).

(** The body of a spec: a failed expectation stops it. *)
Definition G (A : Type) : Type := Spec -> option A * Spec.

Definition gret {A} (a : A) : G A := fun g => (Some a, g).

Definition gbind {A B} (c : G A) (k : A -> G B) : G B :=
  fun g =>
    match c g with
    | (Some a, g') => k a g'
    | (None, g') => (None, g')
    end.

Definition glift (f : Spec -> Spec) : G unit := fun g => (Some tt, f g).

(** [o.Expect(err).NotTo(o.HaveOccurred(), msg)]. *)
Definition expectNoError (err : option error) (msg : string) : G unit :=
  fun g =>
    match err with
    | None => (Some tt, g)
    | Some e => (None, mkSpec (report g) (specFailures g ++ [(msg, e)]) (deferred g))
    end.

Definition expectValue {A} (r : error + A) (msg : string) : G A :=
  match r with
  | inl err => gbind (expectNoError (Some err) msg) (fun _ => fun g => (None, g))
  | inr a => gbind (expectNoError None msg) (fun _ => gret a)
  end.

(** Lines 461-474. *)
Definition startedProgressingCondition (env : Env) : ConditionFunc Spec :=
  fun now g =>
    match progressingCO env now with
    | inl err => ((false, None), LogError err "error getting clusteroperator" g)
    | inr co =>
        match find (fun c => isType c OperatorProgressing ConditionTrue)
                (Conditions co) with
        | Some c =>
            ((true, None),
             Info "Operator is now progressing" [("reason", VString (Reason c))] g)
        | None => ((false, None), g)
        end
    end.

(** Lines 482-517. *)
Definition reconciledCondition (env : Env) : ConditionFunc Spec :=
  fun now g =>
    match reconcileCO env now with
    | inl err => ((false, None), LogError err "error getting clusteroperator" g)
    | inr co =>
        let f := scanConditions (Conditions co) in
        if isDegraded f
        then ((false, None), Info "Warning: operator is degraded" [] g)
        else if isAvailable f && negb (isProgressing f)
        then ((true, None),
              Info "Operator reconciliation complete"
                [("available", VBool true); ("progressing", VBool false)] g)
        else ((false, None),
              Info "Operator still reconciling"
                [("available", VBool (isAvailable f));
                 ("progressing", VBool (isProgressing f))] g)
    end.

(** Lines 522-600. *)
Definition observedConfigCondition (env : Env) : ConditionFunc Spec :=
  fun now g =>
    match verifyCfg env now with
    | inl err =>
        ((false, None),
         LogError err "error getting openshift controller manager config" g)
    | inr cfg =>
        let observed := ObservedConfigRaw cfg in
        let hasTLSVersion := Contains observed (quoted "minTLSVersion") in
        let hasCipherSuites := Contains observed (quoted "cipherSuites") in
        if negb hasTLSVersion || negb hasCipherSuites
        then ((false, None),
              Info "TLS config not yet observed in config"
                [("config", VString observed)] g)
        else
          let g := Info "TLS config successfully observed"
                     [("config", VString observed)] g in
          match jsonUnmarshal env (ObservedConfigRaw cfg) with
          | inl err =>
              ((false, None), LogError err "failed to unmarshal observed config" g)
          | inr observedConfig =>
              let '(_, found, err) := NestedMap observedConfig ["servingInfo"] in
              if isSome err || negb found
              then ((false, None), Info "servingInfo not found in observed config" [] g)
              else
                let '(minTLSVersion, found, err) :=
                  NestedString observedConfig ["servingInfo"; "minTLSVersion"] in
                if isSome err || negb found || String.eqb minTLSVersion ""
                then ((false, None),
                      Info "minTLSVersion not properly set"
                        [("found", VBool found); ("value", VString minTLSVersion)] g)
                else if negb (String.eqb minTLSVersion "VersionTLS13")
                then ((false, None),
                      Info "minTLSVersion not VersionTLS13 yet"
                        [("got", VString minTLSVersion);
                         ("expected", VString "VersionTLS13")] g)
                else
                  let '(cipherSuites, found, err) :=
                    NestedStringSlice observedConfig ["servingInfo"; "cipherSuites"] in
                  if isSome err || negb found || (length cipherSuites =? 0)%nat
                  then ((false, None),
                        Info "cipherSuites not properly set"
                          [("found", VBool found);
                           ("count", VInt (length cipherSuites))] g)
                  else
                    let cipherSet := cipherSetOf cipherSuites in
                    match find (fun expected => negb (mapIndex cipherSet expected))
                            expectedCiphers with
                    | Some expected =>
                        ((false, None),
                         Info "expected cipher suite not found yet"
                           [("expected", VString expected);
                            ("got", VStrings cipherSuites)] g)
                    | None =>
                        ((true, None),
                         Info "Validated Modern TLS config"
                           [("minTLSVersion", VString minTLSVersion);
                            ("cipherSuites", VStrings cipherSuites)] g)
                    end
          end
    end.

(** Lines 377-402. *)
Definition cleanupReconciledCondition (env : Env) : ConditionFunc Spec :=
  fun now g =>
    match cleanupCO env now with
    | inl err =>
        ((false, None), LogError err "error getting clusteroperator during cleanup" g)
    | inr co =>
        let '(isAvailable, isProgressing) :=
          fold_left scanCleanupCondition (Conditions co) (false, true) in
        if isAvailable && negb isProgressing
        then ((true, None),
              Info "Operator reconciliation after restoration complete" [] g)
        else ((false, None), g)
    end.

(** Lines 410-453. *)
Definition restoredCondition (env : Env)
    (originalTLSProfile : option TLSSecurityProfile) : ConditionFunc Spec :=
  fun now g =>
    match cleanupCfg env now with
    | inl err =>
        ((false, None),
         LogError err
           "error getting openshift controller manager config during cleanup verification" g)
    | inr cfg =>
        match jsonUnmarshal env (ObservedConfigRaw cfg) with
        | inl err =>
            ((false, None),
             LogError err "failed to unmarshal observed config during cleanup" g)
        | inr observedConfig =>
            let '(minTLSVersion, found, err) :=
              NestedString observedConfig ["servingInfo"; "minTLSVersion"] in
            match err with
            | Some e =>
                ((false, None), LogError e "error reading minTLSVersion during cleanup" g)
            | None =>
                let waiting :=
                  ((false, None),
                   Info "Waiting for TLS profile restoration to propagate"
                     [("current", VString minTLSVersion)] g) in
                match originalTLSProfile with
                | None =>
                    if found && String.eqb minTLSVersion "VersionTLS12"
                    then ((true, None),
                          Info "TLS profile restored to default"
                            [("minTLSVersion", VString minTLSVersion)] g)
                    else if negb found || String.eqb minTLSVersion ""
                    then ((true, None),
                          Info "TLS profile restored to cluster defaults (no explicit TLS version)"
                            [] g)
                    else waiting
                | Some _ =>
                    if found && negb (String.eqb minTLSVersion "VersionTLS13")
                    then ((true, None),
                          Info "TLS profile restored from Modern"
                            [("minTLSVersion", VString minTLSVersion)] g)
                    else waiting
                end
            end
        end
    end.

(** Lines 362-457: the deferred cleanup.  It only reports. *)
Definition restoreTLSProfile (env : Env)
    (originalTLSProfile : option TLSSecurityProfile) (g : Spec) : Spec :=
  let g := By "Restoring original TLS profile" g in
  match getAPIServerCleanup env with
  | inl err => LogError err "failed to get APIServer for cleanup" g
  | inr apiServer =>
      let apiServer := setTLSSecurityProfile apiServer originalTLSProfile in
      match updateAPIServerCleanup env apiServer with
      | Some err => LogError err "failed to restore original TLS profile" g
      | None =>
          let g := By "Waiting for operator to reconcile TLS profile restoration" g in
          let s := PollUntilContextTimeout (10 * Second) (10 * Minute) true
                     (cleanupReconciledCondition env) g in
          let g := world s in
          match sessionErr (phase s) with
          | Some err =>
              LogError err "operator did not complete reconciliation after restoration" g
          | None =>
              let g := By "Verifying TLS profile was restored correctly" g in
              let s := PollUntilContextTimeout (5 * Second) (2 * Minute) true
                         (restoredCondition env originalTLSProfile) g in
              let g := world s in
              match sessionErr (phase s) with
              | Some err =>
                  LogError err "TLS profile was not properly restored in observed config" g
              | None => g
              end
          end
      end
  end.

(** Modelled from the spec: [framework.MustNewClientset] (test/framework,
    absent from the sources), called with the Ginkgo test handle: a setup
    error is fatal to the spec and reported immediately. *)
Definition MustNewClientset (env : Env) : G unit :=
  expectNoError (newClientsetErr env) "failed to create clientset".

(** Modelled from the spec: [framework.MustEnsureClusterOperatorStatusIsSet]
    (test/framework, absent from the sources), called with the Ginkgo test
    handle: a setup error is fatal to the spec and reported immediately. *)
Definition MustEnsureClusterOperatorStatusIsSet (env : Env) : G unit :=
  expectNoError (ensureStatusErr env) "clusteroperator status is not set".

Definition poll (interval timeout : Z) (immediate : bool)
    (condition : ConditionFunc Spec) : G (option error) :=
  fun g =>
    let s := PollUntilContextTimeout interval timeout immediate condition g in
    (Some (sessionErr (phase s)), world s).

(** Lines 338-603: the body of the spec. *)
Definition testBody (env : Env) : G unit :=
  gbind (MustNewClientset env) (fun _ =>
  gbind (MustEnsureClusterOperatorStatusIsSet env) (fun _ =>
  gbind (expectValue (getAPIServer env) "failed to get APIServer config") (fun apiServer =>
  let originalTLSProfile := SpecTLSSecurityProfile apiServer in
  let apiServer := setTLSSecurityProfile apiServer (Some modernProfile) in
  gbind (expectNoError (updateAPIServer env apiServer)
           "failed to update APIServer TLS profile to Modern") (fun _ =>
  gbind (glift (DeferCleanup (RestoreTLSProfile originalTLSProfile))) (fun _ =>
  gbind (glift (By "Waiting for operator to detect TLS profile change and start progressing"))
    (fun _ =>
  gbind (poll (5 * Second) (5 * Minute) true (startedProgressingCondition env)) (fun err =>
  gbind match err with
        | Some e =>
            glift (Info "Warning: operator did not start progressing within 5 minutes, continuing anyway"
                     [("error", VError e)])
        | None => gret tt
        end (fun _ =>
  gbind (glift (By "Waiting for operator to complete reconciliation (may take up to 15 minutes)"))
    (fun _ =>
  gbind (poll (10 * Second) (15 * Minute) true (reconciledCondition env)) (fun err =>
  gbind (expectNoError err msgReconcile) (fun _ =>
  gbind (glift (By "Verifying TLS config in observed config")) (fun _ =>
  gbind (poll (5 * Second) (2 * Minute) true (observedConfigCondition env)) (fun err =>
  expectNoError err msgPropagated))))))))))))).

Definition runCleanup (env : Env) (f : CleanupFn) (g : Spec) : Spec :=
  match f with
  | RestoreTLSProfile originalTLSProfile => restoreTLSProfile env originalTLSProfile g
  end.

Definition runCleanups (env : Env) (g : Spec) : Spec :=
  fold_left (fun g f => runCleanup env f g) (deferred g) g.

(** The spec on a fresh report. *)
Definition testTLSSecurityProfilePropagation (env : Env) : Spec :=
  runCleanups env (snd (testBody env newSpec)).

(** The five call sites of the poller. *)
Definition sessionCondition (env : Env)
    (originalTLSProfile : option TLSSecurityProfile) (k : SessionId)
  : ConditionFunc Spec :=
  match k with
  | StartedProgressing => startedProgressingCondition env
  | Reconciled => reconciledCondition env
  | ObservedConfig => observedConfigCondition env
  | CleanupReconciled => cleanupReconciledCondition env
  | Restored => restoredCondition env originalTLSProfile
  end.

Definition runSession (env : Env)
    (originalTLSProfile : option TLSSecurityProfile) (k : SessionId) (g : Spec)
  : Session Spec :=
  PollUntilContextTimeout (sessionInterval k) (sessionTimeout k) true
    (sessionCondition env originalTLSProfile k) g.

(** The spec [g'] comes from [g] by reporting only. *)
Definition onlyReported (g g' : Spec) : Prop :=
  specFailures g' = specFailures g /\ deferred g' = deferred g /\
  exists es, report g' = report g ++ es.

End Ginkgo.

(** ** The serial suite of the test binary
    (cmd/cluster-openshift-controller-manager-operator-tests-ext/main.go) *)






(** * Properties *)

Section PollerFacts.
Context {W : Type}.
Variables (interval timeout : Z) (condition : ConditionFunc W).

Local Abbreviation stepS := (step interval timeout condition).
Local Abbreviation runS := (run interval timeout condition).

Lemma step_terminal (s : Session W) :
  terminal (phase s) = true -> stepS s = s.
Proof. unfold step. destruct (phase s); simpl; congruence. Qed.

Lemma run_terminal n (s : Session W) :
  terminal (phase s) = true -> runS n s = s.
Proof.
  induction n as [|n IH]; intros Ht; simpl; [reflexivity|].
  rewrite step_terminal by assumption. now apply IH.
Qed.

Lemma run_add n m (s : Session W) : runS (n + m) s = runS m (runS n s).
Proof. revert s. induction n as [|n IH]; intros s; simpl; [reflexivity|apply IH]. Qed.

Lemma run_unique n m (s : Session W) :
  terminal (phase (runS n s)) = true ->
  terminal (phase (runS m s)) = true ->
  runS n s = runS m s.
Proof.
  intros Hn Hm. destruct (Nat.le_ge_cases n m) as [Hle|Hle].
  - replace m with (n + (m - n))%nat by lia.
    rewrite run_add. symmetry. now apply run_terminal.
  - replace n with (m + (n - m))%nat by lia.
    rewrite run_add. now apply run_terminal.
Qed.

Lemma ticksLeft_tick e :
  0 < interval -> e + interval < timeout ->
  ticksLeft interval timeout e = S (ticksLeft interval timeout (e + interval)).
Proof.
  intros Hi Hlt. unfold ticksLeft.
  replace (timeout - 1 - e) with ((timeout - 1 - (e + interval)) + 1 * interval) by lia.
  rewrite Z.div_add by lia.
  assert (0 <= (timeout - 1 - (e + interval)) / interval)
    by (apply Z.div_pos; lia).
  lia.
Qed.

Lemma step_measure (s : Session W) :
  0 < interval ->
  terminal (phase s) = false ->
  (measure interval timeout (stepS s) < measure interval timeout s)%nat.
Proof.
  intros Hi Ht. unfold measure, step.
  destruct (phase s) eqn:Hp; try discriminate; simpl.
  - destruct (timeout <=? elapsed s + interval) eqn:Hd; simpl; [lia|].
    apply Z.leb_gt in Hd. rewrite (ticksLeft_tick (elapsed s)) by lia. lia.
  - destruct (timeout <=? elapsed s) eqn:Hd; simpl; [lia|].
    destruct (condition (elapsed s) (world s)) as [[ok [e|]] w]; simpl; [lia|].
    destruct ok; simpl; lia.
Qed.

Lemma run_terminates n (s : Session W) :
  0 < interval ->
  (measure interval timeout s <= n)%nat ->
  terminal (phase (runS n s)) = true.
Proof.
  intros Hi. revert s. induction n as [|n IH]; intros s Hm; simpl.
  - unfold measure in Hm. destruct (phase s); simpl; try reflexivity; lia.
  - destruct (terminal (phase s)) eqn:Ht.
    + rewrite step_terminal by assumption. rewrite run_terminal; assumption.
    + apply IH. pose proof (step_measure s Hi Ht). lia.
Qed.

Lemma start_measure immediate (w : W) :
  (measure interval timeout (start immediate w) <= pollFuel interval timeout)%nat.
Proof.
  unfold measure, start, pollFuel, ticksLeft. simpl.
  replace (timeout - 1 - 0) with (timeout - 1) by lia.
  destruct immediate; simpl; lia.
Qed.

(** Every session ends in a terminal state. *)
Lemma poll_terminal immediate (w : W) :
  terminal (phase (PollUntilContextTimeout interval timeout immediate condition w)) = true.
Proof.
  unfold PollUntilContextTimeout.
  destruct ((interval <=? 0) || (timeout <=? 0)) eqn:Hv; [reflexivity|].
  apply orb_false_iff in Hv. destruct Hv as [Hi _]. apply Z.leb_gt in Hi.
  apply run_terminates; [assumption|apply start_measure].
Qed.

(** A property of sessions kept by every transition holds at the end. *)
Lemma run_invariant (P : Session W -> Prop) n (s : Session W) :
  (forall s, P s -> P (stepS s)) -> P s -> P (runS n s).
Proof.
  intros Hstep. revert s. induction n as [|n IH]; intros s Hs; simpl; auto.
Qed.

(** A property of the world kept by the condition holds at the end. *)
Lemma poll_world_invariant (Q : W -> Prop) immediate (w : W) :
  (forall now w, Q w -> Q (snd (condition now w))) ->
  Q w ->
  Q (world (PollUntilContextTimeout interval timeout immediate condition w)).
Proof.
  intros Hc Hw. unfold PollUntilContextTimeout.
  destruct ((interval <=? 0) || (timeout <=? 0)); [exact Hw|].
  apply (run_invariant (fun s => Q (world s))); [|exact Hw].
  intros s Hs. unfold step.
  destruct (phase s); simpl; try assumption.
  - destruct (timeout <=? elapsed s + interval); assumption.
  - destruct (timeout <=? elapsed s); [assumption|].
    specialize (Hc (elapsed s) (world s) Hs).
    destruct (condition (elapsed s) (world s)) as [[ok [e|]] w']; simpl in *;
      [assumption|destruct ok; assumption].
Qed.

(** A condition that never returns an error never aborts the session. *)
Lemma poll_no_abort immediate (w : W) :
  (forall now w, snd (fst (condition now w)) = None) ->
  0 < interval -> 0 < timeout ->
  let s := PollUntilContextTimeout interval timeout immediate condition w in
  phase s = Converged \/ phase s = TimedOut.
Proof.
  intros Hc Hi Ht s.
  assert (Hterm : terminal (phase s) = true) by apply poll_terminal.
  assert (Hinv : match phase s with Aborted _ | Rejected => False | _ => True end).
  { subst s. unfold PollUntilContextTimeout.
    replace ((interval <=? 0) || (timeout <=? 0)) with false
      by (symmetry; apply orb_false_iff; split; apply Z.leb_gt; lia).
    apply (run_invariant
             (fun s => match phase s with Aborted _ | Rejected => False | _ => True end)).
    - intros s0 Hs0. unfold step.
      destruct (phase s0) eqn:Hp; simpl; try (rewrite Hp; exact Hs0).
      + destruct (timeout <=? elapsed s0 + interval); exact I.
      + destruct (timeout <=? elapsed s0); [exact I|].
        specialize (Hc (elapsed s0) (world s0)).
        destruct (condition (elapsed s0) (world s0)) as [[ok [e|]] w']; simpl in *;
          [discriminate|destruct ok; exact I].
    - destruct immediate; exact I. }
  destruct (phase s); simpl in *; try discriminate; try contradiction; auto.
Qed.

(** A condition that is false without error at every check runs into the
    deadline. *)
Lemma poll_always_false immediate (w : W) :
  0 < interval -> 0 < timeout ->
  (forall now w, fst (condition now w) = (false, None)) ->
  let s := PollUntilContextTimeout interval timeout immediate condition w in
  phase s = TimedOut /\ elapsed s = timeout.
Proof.
  intros Hi Ht Hc s.
  assert (Hterm : terminal (phase s) = true) by apply poll_terminal.
  assert (Hinv : pendingInv timeout s).
  { subst s. unfold PollUntilContextTimeout.
    replace ((interval <=? 0) || (timeout <=? 0)) with false
      by (symmetry; apply orb_false_iff; split; apply Z.leb_gt; lia).
    apply (run_invariant (pendingInv timeout)).
    - intros s0. unfold pendingInv, step.
      destruct (phase s0) eqn:Hp; simpl; intros Hs0; try contradiction.
      + destruct (timeout <=? elapsed s0 + interval) eqn:Hd; simpl.
        * lia.
        * apply Z.leb_gt in Hd. lia.
      + destruct (timeout <=? elapsed s0) eqn:Hd; simpl.
        * apply Z.leb_le in Hd. lia.
        * specialize (Hc (elapsed s0) (world s0)).
          destruct (condition (elapsed s0) (world s0)) as [[ok e] w']; simpl in *.
          injection Hc as -> ->. simpl. exact Hs0.
      + rewrite Hp. exact Hs0.
    - unfold pendingInv, start. destruct immediate; simpl; lia. }
  unfold pendingInv in Hinv.
  destruct (phase s); simpl in *; try discriminate; try contradiction; auto.
Qed.

(** The control part of a session (phase, time, number of checks) does
    not depend on the world when the verdict of the condition does not. *)
Lemma run_sameControl n (s s' : Session W) :
  (forall now w w', fst (condition now w) = fst (condition now w')) ->
  sameControl s s' -> sameControl (runS n s) (runS n s').
Proof.
  intros Hc. revert s s'. induction n as [|n IH]; intros s s' Hs; simpl; [exact Hs|].
  apply IH. destruct Hs as (Hp & He & Hk). unfold sameControl, step.
  rewrite <- Hp, <- He, <- Hk.
  destruct (phase s) eqn:Hps; simpl; rewrite <- ?Hp, <- ?He, <- ?Hk; auto.
  - destruct (timeout <=? elapsed s + interval); simpl; auto.
  - destruct (timeout <=? elapsed s); simpl; auto.
    specialize (Hc (elapsed s) (world s) (world s')).
    destruct (condition (elapsed s) (world s)) as [[ok e] w1].
    destruct (condition (elapsed s) (world s')) as [[ok' e'] w2].
    simpl in Hc. injection Hc as <- <-.
    destruct e; [|destruct ok]; simpl; auto.
Qed.

Lemma poll_sameControl immediate (w w' : W) :
  (forall now w w', fst (condition now w) = fst (condition now w')) ->
  sameControl (PollUntilContextTimeout interval timeout immediate condition w)
              (PollUntilContextTimeout interval timeout immediate condition w').
Proof.
  intros Hc. unfold PollUntilContextTimeout.
  destruct ((interval <=? 0) || (timeout <=? 0)); [repeat split|].
  apply run_sameControl; [exact Hc|repeat split].
Qed.

Lemma step_waiting (e : Z) (c : nat) (w : W) :
  e + interval < timeout ->
  stepS (mkSession Waiting e c w) = mkSession Checking (e + interval) c w.
Proof.
  intros Hlt. unfold step. simpl.
  replace (timeout <=? e + interval) with false by (symmetry; apply Z.leb_gt; lia).
  reflexivity.
Qed.

Lemma step_checking (e : Z) (c : nat) (w w' : W) (ok : bool) :
  e < timeout ->
  condition e w = ((ok, None), w') ->
  stepS (mkSession Checking e c w)
  = mkSession (if ok then Converged else Waiting) e (S c) w'.
Proof.
  intros Hlt Hc. unfold step. simpl.
  replace (timeout <=? e) with false by (symmetry; apply Z.leb_gt; lia).
  rewrite Hc. destruct ok; reflexivity.
Qed.

(** While the condition is false without error, the session goes from
    check to check. *)
Lemma run_false_prefix (j : nat) (e : Z) (c : nat) (w : W) :
  0 < interval ->
  e + Z.of_nat j * interval < timeout ->
  (forall i w, (i < j)%nat ->
     fst (condition (e + Z.of_nat i * interval) w) = (false, None)) ->
  exists w', runS (2 * j) (mkSession Checking e c w)
             = mkSession Checking (e + Z.of_nat j * interval) (c + j)%nat w'.
Proof.
  intros Hi. revert e c w. induction j as [|j IH]; intros e c w Hlt Hc.
  - exists w. simpl. f_equal; lia.
  - replace (2 * S j)%nat with (S (S (2 * j))) by lia.
    cbn [run].
    pose proof (Hc 0%nat w ltac:(lia)) as H0.
    replace (e + Z.of_nat 0 * interval) with e in H0 by lia.
    destruct (condition e w) as [[ok er] w1] eqn:Hcw. simpl in H0.
    injection H0 as -> ->.
    rewrite (step_checking e c w w1 false) by (assumption || nia).
    rewrite step_waiting by nia.
    destruct (IH (e + interval) (S c) w1) as [w' Hw'].
    + nia.
    + intros i w0 Hij. specialize (Hc (S i) w0 ltac:(lia)).
      replace (e + interval + Z.of_nat i * interval)
        with (e + Z.of_nat (S i) * interval) by nia.
      exact Hc.
    + exists w'. rewrite Hw'. f_equal; [nia|lia].
Qed.

(** A condition that holds at tick [k], after being false at the earlier
    checked ticks, ends the session there. *)
Lemma poll_converges_at (k : nat) immediate (w : W) :
  0 < interval ->
  Z.of_nat k * interval < timeout ->
  (immediate = false -> (1 <= k)%nat) ->
  (forall j w, (j < k)%nat -> (immediate = false -> (1 <= j)%nat) ->
     fst (condition (Z.of_nat j * interval) w) = (false, None)) ->
  (forall w, fst (condition (Z.of_nat k * interval) w) = (true, None)) ->
  let s := PollUntilContextTimeout interval timeout immediate condition w in
  phase s = Converged /\ elapsed s = Z.of_nat k * interval /\
  (checks s <= k + 1)%nat.
Proof.
  intros Hi Hk Himm Hfalse Htrue s. subst s. unfold PollUntilContextTimeout.
  assert (Ht : 0 < timeout) by nia.
  replace ((interval <=? 0) || (timeout <=? 0)) with false
    by (symmetry; apply orb_false_iff; split; apply Z.leb_gt; lia).
  assert (Hfuel : (2 * k + 2 <= pollFuel interval timeout)%nat).
  { unfold pollFuel.
    assert (Z.of_nat k <= (timeout - 1) / interval)
      by (apply Z.div_le_lower_bound; nia).
    lia. }
  (* the session reaches the check of tick k after 2k transitions at most *)
  assert (Hreach : exists n c w',
            (n <= 2 * k + 1)%nat /\ (c <= k)%nat /\
            runS n (start immediate w)
            = mkSession Checking (Z.of_nat k * interval) c w').
  { destruct immediate.
    - destruct (run_false_prefix k 0 0%nat w Hi) as [w' Hw'].
      + lia.
      + intros i w0 Hik. simpl. apply Hfalse; [exact Hik|discriminate].
      + exists (2 * k)%nat, k, w'. repeat split; try lia.
        unfold start. rewrite Hw'. f_equal.
    - specialize (Himm eq_refl).
      destruct (run_false_prefix (k - 1) interval 0%nat w Hi) as [w' Hw'].
      + nia.
      + intros i w0 Hik.
        replace (interval + Z.of_nat i * interval)
          with (Z.of_nat (S i) * interval) by nia.
        apply Hfalse; lia.
      + exists (S (2 * (k - 1))), (k - 1)%nat, w'. repeat split; try lia.
        cbn [run]. unfold start. rewrite step_waiting by nia.
        rewrite Z.add_0_l, Hw'. f_equal. nia. }
  destruct Hreach as (n & c & w' & Hn & Hc & Hrun).
  replace (pollFuel interval timeout)
    with (n + (1 + (pollFuel interval timeout - n - 1)))%nat by lia.
  rewrite run_add, Hrun, run_add. cbn [run].
  specialize (Htrue w').
  destruct (condition (Z.of_nat k * interval) w') as [[ok er] w2] eqn:Hcw.
  simpl in Htrue. injection Htrue as -> ->.
  rewrite (step_checking _ c w' w2 true) by (assumption || lia).
  rewrite run_terminal by reflexivity. simpl. repeat split; lia.
Qed.

End PollerFacts.

(** ** The conditions of the scenario *)

(** Case analysis on the scrutinee of an innermost [match] of the goal. *)
Ltac break_match :=
  match goal with
  | |- context [match ?x with _ => _ end] =>
      lazymatch x with
      | context [match _ with _ => _ end] => fail
      | _ => destruct x eqn:?
      end
  end.

Ltac break_condition :=
  unfold sessionCondition, startedProgressingCondition, reconciledCondition,
    observedConfigCondition, cleanupReconciledCondition, restoredCondition;
  repeat break_match; simpl; try reflexivity; try discriminate.

(** No condition of the scenario ever returns an error. *)
Lemma condition_no_error env orig k now t :
  snd (fst (sessionCondition env orig k now t)) = None.
Proof. destruct k; break_condition. Qed.

(** The verdict of a condition does not depend on the handle. *)
Lemma condition_verdict_any_handle env orig k now t t' :
  fst (sessionCondition env orig k now t) = fst (sessionCondition env orig k now t').
Proof. destruct k; break_condition. Qed.

Lemma onlyLogged_refl t : onlyLogged t t.
Proof. repeat split. exists []. symmetry. apply app_nil_r. Qed.

Lemma onlyLogged_trans t t1 t2 :
  onlyLogged t t1 -> onlyLogged t1 t2 -> onlyLogged t t2.
Proof.
  intros (Hf1 & Hc1 & l1 & Hl1) (Hf2 & Hc2 & l2 & Hl2).
  repeat split; try congruence.
  exists (l1 ++ l2). rewrite Hl2, Hl1. symmetry. apply app_assoc.
Qed.

Lemma onlyLogged_Log line t t' : onlyLogged t t' -> onlyLogged t (Log line t').
Proof.
  intros H. apply (onlyLogged_trans _ _ _ H).
  repeat split. exists [line]. reflexivity.
Qed.

(** A condition only writes to the log. *)
Lemma condition_only_logs env orig k now t :
  onlyLogged t (snd (sessionCondition env orig k now t)).
Proof.
  destruct k; break_condition;
    repeat first [apply onlyLogged_refl | apply onlyLogged_Log].
Qed.

Arguments PollUntilContextTimeout : simpl never.

Lemma session_positive k : 0 < sessionInterval k /\ 0 < sessionTimeout k.
Proof. destruct k; split; reflexivity. Qed.

(** A session of the scenario only writes to the log. *)
Lemma runSession_only_logs env orig k t :
  onlyLogged t (world (runSession env orig k t)).
Proof.
  unfold runSession.
  apply (poll_world_invariant _ _ _ (onlyLogged t)).
  - intros now w H. apply (onlyLogged_trans _ _ _ H), condition_only_logs.
  - apply onlyLogged_refl.
Qed.

(** How a session of the scenario ends does not depend on the handle it
    starts from. *)
Lemma session_outcome_any_handle env orig k t t' :
  sameControl (runSession env orig k t) (runSession env orig k t').
Proof.
  unfold runSession. apply poll_sameControl.
  intros now w w'. apply condition_verdict_any_handle.
Qed.

(** A session of the scenario converges or times out. *)
Lemma runSession_ends env orig k t :
  phase (runSession env orig k t) = Converged \/
  phase (runSession env orig k t) = TimedOut.
Proof.
  destruct (session_positive k) as [Hi Ht].
  apply poll_no_abort; try assumption.
  intros now w. apply condition_no_error.
Qed.

(** A failed fetch is a negative verdict. *)
Lemma fetch_failure_negative env orig k now t :
  fetchFails env k now = true ->
  fst (sessionCondition env orig k now t) = (false, None).
Proof.
  unfold fetchFails. destruct k; break_condition;
    unfold isErr; simpl; intros; try reflexivity; try discriminate.
  repeat match goal with
         | H : _ || _ = false |- _ => apply orb_false_iff in H; destruct H
         end.
  destruct o0, o1, o2; simpl in *; discriminate.
Qed.

(** ** The cleanup and the body *)

(** The call sites of the poller, as sessions of the scenario. *)
Lemma site_startedProgressing env orig t :
  PollUntilContextTimeout (5 * Second) (5 * Minute) true
    (startedProgressingCondition env) t
  = runSession env orig StartedProgressing t.
Proof.
  unfold runSession. cbn [sessionInterval sessionTimeout sessionCondition].
  reflexivity.
Qed.

Lemma site_reconciled env orig t :
  PollUntilContextTimeout (10 * Second) (15 * Minute) true
    (reconciledCondition env) t
  = runSession env orig Reconciled t.
Proof.
  unfold runSession. cbn [sessionInterval sessionTimeout sessionCondition].
  reflexivity.
Qed.

Lemma site_observedConfig env orig t :
  PollUntilContextTimeout (5 * Second) (2 * Minute) true
    (observedConfigCondition env) t
  = runSession env orig ObservedConfig t.
Proof.
  unfold runSession. cbn [sessionInterval sessionTimeout sessionCondition].
  reflexivity.
Qed.

Lemma site_cleanupReconciled env orig t :
  PollUntilContextTimeout (10 * Second) (10 * Minute) true
    (cleanupReconciledCondition env) t
  = runSession env orig CleanupReconciled t.
Proof.
  unfold runSession. cbn [sessionInterval sessionTimeout sessionCondition].
  reflexivity.
Qed.

Lemma site_restored env orig t :
  PollUntilContextTimeout (5 * Second) (2 * Minute) true
    (restoredCondition env orig) t
  = runSession env orig Restored t.
Proof.
  unfold runSession. cbn [sessionInterval sessionTimeout sessionCondition].
  reflexivity.
Qed.

(** The cleanup closure only writes to the log. *)
Lemma restoreTLSProfile_only_logs env orig t :
  onlyLogged t (restoreTLSProfile env orig t).
Proof.
  unfold restoreTLSProfile.
  destruct (getAPIServerCleanup env) as [e|apiServer];
    [repeat apply onlyLogged_Log; apply onlyLogged_refl|].
  destruct (updateAPIServerCleanup env _) as [e|];
    [repeat apply onlyLogged_Log; apply onlyLogged_refl|].
  rewrite (site_cleanupReconciled env orig).
  match goal with
  | |- context [runSession env orig CleanupReconciled ?t1] =>
      assert (H1 : onlyLogged t (world (runSession env orig CleanupReconciled t1)))
        by (eapply onlyLogged_trans; [|apply runSession_only_logs];
            repeat apply onlyLogged_Log; apply onlyLogged_refl);
      generalize dependent (runSession env orig CleanupReconciled t1)
  end.
  intros s1 H1.
  destruct (sessionErr (phase s1)) as [e|]; [apply onlyLogged_Log; exact H1|].
  rewrite (site_restored env orig).
  match goal with
  | |- context [runSession env orig Restored ?t2] =>
      assert (H2 : onlyLogged t (world (runSession env orig Restored t2)))
        by (eapply onlyLogged_trans; [|apply runSession_only_logs];
            apply onlyLogged_Log; exact H1);
      generalize dependent (runSession env orig Restored t2)
  end.
  intros s2 H2.
  destruct (sessionErr (phase s2)) as [e|]; [apply onlyLogged_Log|]; exact H2.
Qed.

(** The equations of the test monad. *)
Lemma bind_ret {A B} (a : A) (k : A -> T B) t : bind (ret a) k t = k a t.
Proof. reflexivity. Qed.

Lemma bind_assoc {A B C} (c : T A) (k1 : A -> T B) (k2 : B -> T C) t :
  bind (bind c k1) k2 t = bind c (fun a => bind (k1 a) k2) t.
Proof. unfold bind. destruct (c t) as [[a|] t']; reflexivity. Qed.

Lemma bind_lift {B} f (k : unit -> T B) t : bind (lift f) k t = k tt (f t).
Proof. reflexivity. Qed.

Lemma bind_requireNoError_nil {B} msg (k : unit -> T B) t :
  bind (requireNoError None msg) k t = k tt t.
Proof. reflexivity. Qed.

Lemma bind_requireNoError_err {B} e msg (k : unit -> T B) t :
  bind (requireNoError (Some e) msg) k t
  = (None, mkTB (logs t) (failures t ++ [(msg, e)]) (cleanups t)).
Proof. reflexivity. Qed.

Lemma bind_poll {B} interval timeout immediate condition
    (k : option error -> T B) t :
  bind (poll interval timeout immediate condition) k t
  = k (sessionErr (phase (PollUntilContextTimeout interval timeout immediate condition t)))
      (world (PollUntilContextTimeout interval timeout immediate condition t)).
Proof. reflexivity. Qed.

(** Replaces the session of call site [k] in the goal by a variable that
    is known to only write to the log and to end as the session run from a
    fresh handle. *)
Ltac abstract_session env k s Hf Hc Hp :=
  match goal with
  | |- context [runSession env None k ?t] =>
      lazymatch t with
      | newTB => fail
      | _ =>
          destruct (runSession_only_logs env None k t) as (Hf & Hc & _);
          destruct (session_outcome_any_handle env None k newTB t) as (Hp & _ & _);
          try rewrite Hp;
          generalize dependent (runSession env None k t); intros s Hf Hc Hp
      end
  end.

Lemma testBody_records env :
  failures (snd (testBody env newTB)) = expectedFailures env /\
  cleanups (snd (testBody env newTB))
  = match setupFailure env, getAPIServer env with
    | None, inr apiServer => [RestoreTLSProfile (SpecTLSSecurityProfile apiServer)]
    | _, _ => []
    end.
Proof.
  unfold testBody, expectedFailures, setupFailure, sessionOutcome,
    MustNewClientset, MustEnsureClusterOperatorStatusIsSet.
  destruct (newClientsetErr env) as [e|];
    [rewrite bind_requireNoError_err; split; reflexivity|].
  rewrite bind_requireNoError_nil.
  destruct (ensureStatusErr env) as [e|];
    [rewrite bind_requireNoError_err; split; reflexivity|].
  rewrite bind_requireNoError_nil.
  unfold requireValue.
  destruct (getAPIServer env) as [e|apiServer].
  { rewrite bind_assoc, bind_requireNoError_err. split; reflexivity. }
  rewrite bind_assoc, bind_requireNoError_nil, bind_ret.
  destruct (updateAPIServer env _) as [e|];
    [rewrite bind_requireNoError_err; split; reflexivity|].
  rewrite bind_requireNoError_nil, !bind_lift, bind_poll.
  rewrite (site_startedProgressing env None).
  abstract_session env StartedProgressing s1 Hf1 Hc1 Hp1.
  cbn [Log Cleanup failures cleanups newTB] in Hf1, Hc1.
  clear Hp1.
  destruct (sessionErr (phase s1)) as [e|];
    [rewrite bind_lift|rewrite bind_ret]; rewrite bind_lift, bind_poll;
    rewrite (site_reconciled env None);
    abstract_session env Reconciled s2 Hf2 Hc2 Hp2;
    cbn [Log failures cleanups] in Hf2, Hc2; rewrite Hf1 in Hf2; rewrite Hc1 in Hc2;
    (destruct (sessionErr (phase s2)) as [e2|];
     [rewrite bind_requireNoError_err; cbn [snd failures cleanups];
      rewrite Hf2, Hc2; split; reflexivity|]);
    rewrite bind_requireNoError_nil, bind_lift, bind_poll;
    rewrite (site_observedConfig env None);
    abstract_session env ObservedConfig s3 Hf3 Hc3 Hp3;
    cbn [Log failures cleanups] in Hf3, Hc3; rewrite Hf2 in Hf3; rewrite Hc2 in Hc3;
    unfold requireNoError;
    destruct (sessionErr (phase s3)) as [e3|]; cbn [snd failures cleanups];
    rewrite ?Hf3, ?Hc3; split; reflexivity.
Qed.

(** ** The poller: termination and convergence *)

Lemma poll_valid {W} interval timeout immediate (condition : ConditionFunc W) w :
  0 < interval -> 0 < timeout ->
  PollUntilContextTimeout interval timeout immediate condition w
  = run interval timeout condition (pollFuel interval timeout) (start immediate w).
Proof.
  intros Hi Ht. unfold PollUntilContextTimeout.
  replace ((interval <=? 0) || (timeout <=? 0)) with false
    by (symmetry; apply orb_false_iff; split; apply Z.leb_gt; lia).
  reflexivity.
Qed.

(** C2: every poll session terminates, in exactly one terminal state; for
    an interval I > 0 and a deadline D > I, a session whose predicate always
    returns (false, nil) ends within D + I of its start (at D) and reports
    the timeout: converged = false with the deadline-exceeded error. *)
Theorem poll_session_terminates {W} (interval timeout : Z) (immediate : bool)
    (condition : ConditionFunc W) (w : W) :
  0 < interval -> interval < timeout ->
  let s := PollUntilContextTimeout interval timeout immediate condition w in
  terminal (phase s) = true /\
  (forall n,
     terminal (phase (run interval timeout condition n (start immediate w))) = true ->
     run interval timeout condition n (start immediate w) = s) /\
  ((forall now w, fst (condition now w) = (false, None)) ->
   phase s = TimedOut /\ converged (phase s) = false /\
   sessionErr (phase s) = Some DeadlineExceeded /\
   elapsed s = timeout /\ elapsed s <= timeout + interval).
Proof.
  intros Hi Hd s.
  assert (Hterm : terminal (phase s) = true) by apply poll_terminal.
  split; [exact Hterm|split].
  - intros n Hn. subst s. rewrite poll_valid in * by lia.
    apply run_unique; assumption.
  - intros Hfalse.
    destruct (poll_always_false interval timeout condition immediate w) as [Hp He];
      try assumption; try lia.
    fold s in Hp, He. rewrite Hp. repeat split; try reflexivity; lia.
Qed.

Lemma poll_session_terminates_witness :
  let s := PollUntilContextTimeout (10 * Second) (2 * Minute) true neverHolds 0%nat in
  phase s = TimedOut /\ elapsed s = 2 * Minute /\ checks s = 12%nat.
Proof.
  pose proof (poll_session_terminates (10 * Second) (2 * Minute) true neverHolds 0%nat
                ltac:(reflexivity) ltac:(reflexivity)) as H.
  cbv zeta in *. destruct H as (_ & _ & H).
  destruct (H ltac:(intros; reflexivity)) as (Hp & _ & _ & He & _).
  split; [exact Hp|split; [exact He|vm_compute; reflexivity]].
Defined.

(** C8: a predicate that first returns true at tick k (the check at time
    k * I), with k * I before the deadline D, makes the session report
    converged = true at that tick, hence at or before tick k + 1, with a nil
    error.  Without an immediate first check the ticks start at 1. *)
Theorem poll_converges_by_tick {W} (interval timeout : Z) (immediate : bool)
    (condition : ConditionFunc W) (w : W) (k : nat) :
  0 < interval ->
  Z.of_nat k * interval < timeout ->
  (immediate = false -> (1 <= k)%nat) ->
  (forall j w, (j < k)%nat -> (immediate = false -> (1 <= j)%nat) ->
     fst (condition (Z.of_nat j * interval) w) = (false, None)) ->
  (forall w, fst (condition (Z.of_nat k * interval) w) = (true, None)) ->
  let s := PollUntilContextTimeout interval timeout immediate condition w in
  converged (phase s) = true /\ sessionErr (phase s) = None /\
  elapsed s = Z.of_nat k * interval /\
  elapsed s <= Z.of_nat (k + 1) * interval /\
  (checks s <= k + 1)%nat.
Proof.
  intros Hi Hk Himm Hfalse Htrue s.
  destruct (poll_converges_at interval timeout condition k immediate w)
    as (Hp & He & Hc); try assumption.
  fold s in Hp, He, Hc. rewrite Hp. repeat split; try assumption. nia.
Qed.

Lemma poll_converges_by_tick_witness :
  let s := PollUntilContextTimeout 10 100 false (holdsFrom 30) 0%nat in
  converged (phase s) = true /\ sessionErr (phase s) = None /\
  elapsed s = 30 /\ elapsed s <= 40 /\ (checks s <= 4)%nat.
Proof.
  apply (poll_converges_by_tick 10 100 false (holdsFrom 30) 0%nat 3).
  - reflexivity.
  - reflexivity.
  - intros _. lia.
  - intros j w Hj Hj1. unfold holdsFrom. simpl fst.
    replace (30 <=? Z.of_nat j * 10) with false; [reflexivity|].
    symmetry. apply Z.leb_gt. lia.
  - intros w. reflexivity.
Defined.

(** C9: with an immediate first check, a session whose predicate is already
    true converges at once, after one evaluation of the predicate and
    before any sleep, with a nil error; running it again gives the same, and
    the only effect of each run is the one the predicate's single
    evaluation has. *)
Theorem poll_twice_already_true {W} (interval timeout : Z)
    (condition : ConditionFunc W) (w : W) :
  0 < interval -> 0 < timeout ->
  fst (condition 0 w) = (true, None) ->
  fst (condition 0 (snd (condition 0 w))) = (true, None) ->
  let s1 := PollUntilContextTimeout interval timeout true condition w in
  let s2 := PollUntilContextTimeout interval timeout true condition (world s1) in
  (converged (phase s1) = true /\ sessionErr (phase s1) = None /\
   elapsed s1 = 0 /\ checks s1 = 1%nat /\ world s1 = snd (condition 0 w)) /\
  (converged (phase s2) = true /\ sessionErr (phase s2) = None /\
   elapsed s2 = 0 /\ checks s2 = 1%nat /\ world s2 = snd (condition 0 (world s1))).
Proof.
  intros Hi Ht H1 H2.
  assert (Hone : forall w0, fst (condition 0 w0) = (true, None) ->
            PollUntilContextTimeout interval timeout true condition w0
            = mkSession Converged 0 1%nat (snd (condition 0 w0))).
  { intros w0 H0. rewrite poll_valid by assumption.
    unfold pollFuel. rewrite Nat.add_comm. cbn [Nat.add run]. unfold start.
    destruct (condition 0 w0) as [[ok er] w1] eqn:Hc. simpl in H0.
    injection H0 as -> ->.
    rewrite (step_checking interval timeout condition 0 0%nat w0 w1 true)
      by assumption.
    rewrite run_terminal by reflexivity. reflexivity. }
  intros s1 s2. subst s2. subst s1. rewrite (Hone w H1). cbn [world].
  rewrite (Hone _ H2). cbn. repeat split.
Qed.

Lemma poll_twice_already_true_witness :
  let s1 := PollUntilContextTimeout (5 * Second) (2 * Minute) true (holdsFrom 0) 0%nat in
  let s2 := PollUntilContextTimeout (5 * Second) (2 * Minute) true (holdsFrom 0) (world s1) in
  (checks s1 = 1%nat /\ world s1 = 1%nat) /\ (checks s2 = 1%nat /\ world s2 = 2%nat).
Proof.
  pose proof (poll_twice_already_true (5 * Second) (2 * Minute) (holdsFrom 0) 0%nat
                ltac:(reflexivity) ltac:(reflexivity) ltac:(reflexivity)
                ltac:(reflexivity)) as H.
  cbv zeta in H. destruct H as ((_ & _ & _ & Hc1 & Hw1) & (_ & _ & _ & Hc2 & Hw2)).
  repeat split; assumption.
Defined.

(** ** The scenario: what fails the test *)

Lemma runCleanups_only_logs env fs t :
  onlyLogged t (fold_left (fun t f => runCleanup env f t) fs t).
Proof.
  revert t. induction fs as [|f fs IH]; intros t; simpl.
  - apply onlyLogged_refl.
  - eapply onlyLogged_trans; [|apply IH].
    destruct f as [orig]. apply restoreTLSProfile_only_logs.
Qed.

Lemma scenario_failures env :
  failures (testTLSSecurityProfilePropagation env) = expectedFailures env.
Proof.
  unfold testTLSSecurityProfilePropagation, runCleanups.
  destruct (runCleanups_only_logs env (cleanups (snd (testBody env newTB)))
              (snd (testBody env newTB))) as (Hf & _ & _).
  rewrite Hf. apply testBody_records.
Qed.

Lemma sessionOutcome_cases env k :
  sessionOutcome env k = None \/ sessionOutcome env k = Some DeadlineExceeded.
Proof.
  unfold sessionOutcome.
  destruct (runSession_ends env None k newTB) as [-> | ->]; [left|right]; reflexivity.
Qed.

(** C5: no error or timeout of the cleanup phase fails the test.  The
    cleanup closure records no failure whatever the answers of the cluster
    (failed re-fetch or update of the APIServer, timeout of either cleanup
    poll): it only appends lines to the log and returns; the failures of the
    whole scenario are those of its body. *)
Theorem cleanup_never_fails env :
  (forall orig t,
     failures (restoreTLSProfile env orig t) = failures t /\
     Failed (restoreTLSProfile env orig t) = Failed t /\
     exists lines, logs (restoreTLSProfile env orig t) = logs t ++ lines) /\
  failures (testTLSSecurityProfilePropagation env)
  = failures (snd (testBody env newTB)) /\
  Failed (testTLSSecurityProfilePropagation env)
  = Failed (snd (testBody env newTB)).
Proof.
  split.
  - intros orig t.
    destruct (restoreTLSProfile_only_logs env orig t) as (Hf & _ & Hl).
    unfold Failed. rewrite Hf. repeat split. exact Hl.
  - unfold testTLSSecurityProfilePropagation, runCleanups.
    destruct (runCleanups_only_logs env (cleanups (snd (testBody env newTB)))
                (snd (testBody env newTB))) as (Hf & _ & _).
    unfold Failed. rewrite Hf. split; reflexivity.
Qed.

(** C3, as the code has it: a timeout of the reconciliation session or of
    the observed-config session fails the scenario, with the message that
    names the unmet condition; the failures of the scenario are its first
    setup error or that timeout and nothing else, so the outcome of the
    started-progressing session never fails it. *)
Theorem convergence_timeouts_fail_the_scenario env :
  failures (testTLSSecurityProfilePropagation env) = expectedFailures env /\
  (setupFailure env = None ->
   sessionOutcome env Reconciled = Some DeadlineExceeded ->
   failures (testTLSSecurityProfilePropagation env)
   = [(msgReconcile, DeadlineExceeded)]) /\
  (setupFailure env = None ->
   sessionOutcome env Reconciled = None ->
   sessionOutcome env ObservedConfig = Some DeadlineExceeded ->
   failures (testTLSSecurityProfilePropagation env)
   = [(msgPropagated, DeadlineExceeded)]) /\
  (Failed (testTLSSecurityProfilePropagation env) = true ->
   setupFailure env <> None \/
   sessionOutcome env Reconciled = Some DeadlineExceeded \/
   sessionOutcome env ObservedConfig = Some DeadlineExceeded).
Proof.
  pose proof (scenario_failures env) as Hfail.
  split; [exact Hfail|]. unfold Failed. rewrite Hfail. unfold expectedFailures.
  split; [|split].
  - intros -> ->. reflexivity.
  - intros -> -> ->. reflexivity.
  - destruct (setupFailure env) as [f|]; [intros _; left; discriminate|].
    destruct (sessionOutcome_cases env Reconciled) as [-> | ->];
      [|intros _; right; left; reflexivity].
    destruct (sessionOutcome_cases env ObservedConfig) as [-> | ->];
      [discriminate|intros _; right; right; reflexivity].
Qed.

Lemma convergence_timeouts_fail_the_scenario_witness :
  failures (testTLSSecurityProfilePropagation envDegraded)
  = [(msgReconcile, DeadlineExceeded)] /\
  failures (testTLSSecurityProfilePropagation envEscaped)
  = [(msgPropagated, DeadlineExceeded)].
Proof.
  split.
  - apply (proj1 (proj2 (convergence_timeouts_fail_the_scenario envDegraded))).
    + reflexivity.
    + vm_compute. reflexivity.
  - apply (proj1 (proj2 (proj2 (convergence_timeouts_fail_the_scenario envEscaped)))).
    + reflexivity.
    + vm_compute. reflexivity.
    + vm_compute. reflexivity.
Defined.

(** C3, as stated, fails on the started-progressing session: it is a
    primary session, it times out when the operator is never seen
    progressing, and the scenario logs a warning and passes. *)
Lemma started_progressing_timeout_is_tolerated :
  primary StartedProgressing = true /\
  sessionOutcome envNoProgress StartedProgressing = Some DeadlineExceeded /\
  Failed (testTLSSecurityProfilePropagation envNoProgress) = false /\
  existsb (String.eqb msgNoProgress)
    (logs (testTLSSecurityProfilePropagation envNoProgress)) = true.
Proof. vm_compute. repeat split. Qed.

(** ** The conditions: fetch errors and degradation *)

(** C1: for every poll session of the scenario, the predicate never returns
    an error; a failed fetch (a failed Get, a failed decoding or field read
    of the observed config) makes it return (false, nil); so the session
    ends converged or with the deadline-exceeded error, never with a fetch
    error; and when the fetch fails at every invocation the session runs to
    its deadline and reports the timeout. *)
Theorem fetch_errors_never_end_a_session env orig k :
  (forall now t, snd (fst (sessionCondition env orig k now t)) = None) /\
  (forall now t, fetchFails env k now = true ->
     fst (sessionCondition env orig k now t) = (false, None)) /\
  (forall t, sessionErr (phase (runSession env orig k t)) = None \/
             sessionErr (phase (runSession env orig k t)) = Some DeadlineExceeded) /\
  ((forall now, fetchFails env k now = true) ->
   forall t, let s := runSession env orig k t in
     phase s = TimedOut /\ converged (phase s) = false /\
     sessionErr (phase s) = Some DeadlineExceeded /\
     elapsed s = sessionTimeout k).
Proof.
  split; [|split; [|split]].
  - intros now t. apply condition_no_error.
  - intros now t. apply fetch_failure_negative.
  - intros t. destruct (runSession_ends env orig k t) as [-> | ->];
      [left|right]; reflexivity.
  - intros Hdown t s.
    destruct (session_positive k) as [Hi Ht].
    destruct (poll_always_false (sessionInterval k) (sessionTimeout k)
                (sessionCondition env orig k) true t Hi Ht) as [Hp He].
    + intros now w. apply fetch_failure_negative, Hdown.
    + fold (runSession env orig k t) in Hp, He. fold s in Hp, He.
      rewrite Hp. repeat split. exact He.
Qed.

Lemma fetch_errors_never_end_a_session_witness :
  fst (observedConfigCondition envDown 0 newTB) = (false, None) /\
  phase (runSession envDown None StartedProgressing newTB) = TimedOut /\
  elapsed (runSession envDown None ObservedConfig newTB) = 2 * Minute.
Proof.
  split; [|split].
  - apply (proj1 (proj2 (fetch_errors_never_end_a_session envDown None ObservedConfig))
             0 newTB).
    reflexivity.
  - apply (proj2 (proj2 (proj2
             (fetch_errors_never_end_a_session envDown None StartedProgressing)))).
    intros now. reflexivity.
  - apply (proj2 (proj2 (proj2
             (fetch_errors_never_end_a_session envDown None ObservedConfig)))).
    intros now. reflexivity.
Defined.

Lemma scan_degraded conds f :
  isDegraded (fold_left scanCondition conds f)
  = isDegraded f || existsb (fun c => isType c OperatorDegraded ConditionTrue) conds.
Proof.
  revert f. induction conds as [|c conds IH]; intros f; simpl.
  - symmetry. apply orb_false_r.
  - rewrite IH. unfold scanCondition.
    destruct (isType c OperatorAvailable ConditionTrue),
             (isType c OperatorProgressing ConditionFalse),
             (isType c OperatorDegraded ConditionTrue); simpl;
      rewrite ?orb_true_r; try reflexivity; destruct (isDegraded f); reflexivity.
Qed.

Lemma degraded_negative env now t co :
  reconcileCO env now = inr co -> degraded co = true ->
  reconciledCondition env now t = ((false, None), Log "Warning: operator is degraded" t).
Proof.
  intros Hco Hd. unfold reconciledCondition. rewrite Hco.
  unfold scanConditions. rewrite scan_degraded. unfold degraded in Hd.
  rewrite Hd. reflexivity.
Qed.

(** C7: whenever the operator's Degraded condition has status True, the
    reconciliation-complete predicate returns (false, nil), whatever the
    Available and Progressing conditions say; a check that sees the
    degradation sends the session back to waiting, and a session that sees
    it at every check runs to its deadline of fifteen minutes. *)
Theorem degraded_keeps_polling env :
  (forall now t co,
     reconcileCO env now = inr co -> degraded co = true ->
     reconciledCondition env now t
     = ((false, None), Log "Warning: operator is degraded" t)) /\
  (forall now t co n,
     reconcileCO env now = inr co -> degraded co = true ->
     now < 15 * Minute ->
     step (10 * Second) (15 * Minute) (reconciledCondition env)
       (mkSession Checking now n t)
     = mkSession Waiting now (S n) (Log "Warning: operator is degraded" t)) /\
  ((forall now, exists co, reconcileCO env now = inr co /\ degraded co = true) ->
   forall t, let s := runSession env None Reconciled t in
     phase s = TimedOut /\ sessionErr (phase s) = Some DeadlineExceeded /\
     elapsed s = 15 * Minute).
Proof.
  split; [|split].
  - intros now t co. apply degraded_negative.
  - intros now t co n Hco Hd Hlt.
    apply (step_checking (10 * Second) (15 * Minute) (reconciledCondition env)
             now n t _ false Hlt).
    apply (degraded_negative env now t co Hco Hd).
  - intros Hdeg t s.
    destruct (poll_always_false (10 * Second) (15 * Minute)
                (reconciledCondition env) true t) as [Hp He];
      try reflexivity.
    + intros now w. destruct (Hdeg now) as (co & Hco & Hd).
      rewrite (degraded_negative env now w co Hco Hd). reflexivity.
    + rewrite (site_reconciled env None) in Hp, He. fold s in Hp, He.
      rewrite Hp. repeat split. exact He.
Qed.

Lemma degraded_keeps_polling_witness :
  reconciledCondition envDegraded 0 newTB
  = ((false, None), Log "Warning: operator is degraded" newTB) /\
  phase (runSession envDegraded None Reconciled newTB) = TimedOut.
Proof.
  split.
  - apply (proj1 (degraded_keeps_polling envDegraded) 0 newTB coDegraded);
      reflexivity.
  - apply (proj2 (proj2 (degraded_keeps_polling envDegraded))).
    intros now. exists coDegraded. split; reflexivity.
Defined.

(** ** The observed-config predicate *)

Lemma mapIndex_insert (m : gmap string bool) a c :
  mapIndex (<[a := true]> m) c = String.eqb c a || mapIndex m c.
Proof.
  unfold mapIndex. rewrite lookup_insert.
  destruct (String.eqb_spec c a) as [->|Hne]; case_decide; simpl; congruence.
Qed.

Lemma cipherSet_fold (l : list string) (m : gmap string bool) c :
  mapIndex (fold_left (fun m cipher => <[cipher := true]> m) l m) c
  = mapIndex m c || existsb (String.eqb c) l.
Proof.
  revert m. induction l as [|a l IH]; intros m; simpl.
  - symmetry. apply orb_false_r.
  - rewrite IH, mapIndex_insert.
    destruct (String.eqb c a), (mapIndex m c); reflexivity.
Qed.

(** The loop over the map of observed ciphers is a membership test. *)
Lemma cipherSet_index l c : mapIndex (cipherSetOf l) c = existsb (String.eqb c) l.
Proof. unfold cipherSetOf. rewrite cipherSet_fold. reflexivity. Qed.

Lemma find_negb_none {A} (f : A -> bool) l :
  find (fun x => negb (f x)) l = None <-> forallb f l = true.
Proof.
  induction l as [|a l IH]; simpl; [tauto|].
  destruct (f a); simpl; [exact IH|split; discriminate].
Qed.

Lemma expected_present l :
  find (fun expected => negb (mapIndex (cipherSetOf l) expected)) expectedCiphers = None
  <-> forallb (fun expected => existsb (String.eqb expected) l) expectedCiphers = true.
Proof.
  rewrite find_negb_none. unfold expectedCiphers. cbn [forallb].
  rewrite !cipherSet_index. reflexivity.
Qed.

(** A string read below a key implies that the key holds a map. *)
Lemma nestedString_parent obj a b v :
  NestedString obj [a; b] = (v, true, None) ->
  exists m, NestedMap obj [a] = (m, true, None).
Proof.
  unfold NestedString, NestedMap. cbn [NestedFieldNoCopy].
  destruct (obj !! a) as [[| | | |l|m]|]; try discriminate.
  intros _. exists m. reflexivity.
Qed.

Ltac split_bools :=
  repeat match goal with
         | H : _ || _ = false |- _ => apply orb_false_iff in H; destruct H
         | H : _ && _ = true |- _ => apply andb_true_iff in H; destruct H
         | H : negb _ = false |- _ => apply negb_false_iff in H
         | H : negb _ = true |- _ => apply negb_true_iff in H
         | H : isSome ?o = false |- _ => destruct o; [discriminate H|clear H]
         end.

(** C4, as the code has it: the observed-config predicate converges exactly
    when the config was fetched, its text contains the quoted names of both
    keys, it decodes, and the decoded serving section reports minTLSVersion
    equal to VersionTLS13 and a cipherSuites list of strings that contains
    the three Modern ciphers (a subset check: further ciphers are
    tolerated). *)
Theorem observed_config_converges_iff env now t :
  fst (fst (observedConfigCondition env now t)) = true <->
  exists cfg obj,
    verifyCfg env now = inr cfg /\
    Contains (ObservedConfigRaw cfg) (quoted "minTLSVersion") = true /\
    Contains (ObservedConfigRaw cfg) (quoted "cipherSuites") = true /\
    jsonUnmarshal env (ObservedConfigRaw cfg) = inr obj /\
    specReportsModern obj = true.
Proof.
  split.
  - unfold observedConfigCondition.
    destruct (verifyCfg env now) as [e|cfg]; [discriminate|].
    destruct (negb (Contains (ObservedConfigRaw cfg) (quoted "minTLSVersion"))
              || negb (Contains (ObservedConfigRaw cfg) (quoted "cipherSuites")))
      eqn:Hguard; [discriminate|].
    destruct (jsonUnmarshal env (ObservedConfigRaw cfg)) as [e|obj] eqn:Hobj;
      [discriminate|].
    destruct (NestedMap obj ["servingInfo"]) as [[m fm] em].
    destruct (isSome em || negb fm); [discriminate|].
    destruct (NestedString obj ["servingInfo"; "minTLSVersion"]) as [[v fv] ev] eqn:Hv.
    destruct (isSome ev || negb fv || String.eqb v "") eqn:Hset; [discriminate|].
    destruct (negb (String.eqb v "VersionTLS13")) eqn:Hmodern; [discriminate|].
    destruct (NestedStringSlice obj ["servingInfo"; "cipherSuites"])
      as [[l fl] el] eqn:Hl.
    destruct (isSome el || negb fl || (length l =? 0)%nat) eqn:Hciphers;
      [discriminate|].
    destruct (find _ expectedCiphers) eqn:Hfind; [discriminate|].
    intros _. exists cfg, obj. split_bools.
    repeat split; try assumption.
    unfold specReportsModern. rewrite Hv, Hl.
    destruct fv; [|discriminate]. destruct fl; [|discriminate].
    apply andb_true_iff. split; [assumption|].
    now apply expected_present.
  - intros (cfg & obj & Hcfg & Hk1 & Hk2 & Hobj & Hspec).
    unfold observedConfigCondition. rewrite Hcfg, Hk1, Hk2, Hobj. cbn [negb orb].
    unfold specReportsModern in Hspec.
    destruct (NestedString obj ["servingInfo"; "minTLSVersion"]) as [[v fv] ev] eqn:Hv.
    destruct fv; [|discriminate]. destruct ev; [discriminate|].
    apply andb_true_iff in Hspec. destruct Hspec as [Hmodern Hspec].
    destruct (nestedString_parent _ _ _ _ Hv) as [m ->]. cbn [isSome negb orb].
    apply String.eqb_eq in Hmodern. subst v.
    cbn [String.eqb Ascii.eqb Bool.eqb negb orb andb].
    destruct (NestedStringSlice obj ["servingInfo"; "cipherSuites"])
      as [[l fl] el] eqn:Hl.
    destruct fl; [|discriminate]. destruct el; [discriminate|].
    cbn [isSome negb orb].
    destruct l as [|c l]; [discriminate|]. cbn [length Nat.eqb].
    apply expected_present in Hspec. rewrite Hspec. reflexivity.
Qed.

Lemma observed_config_converges_iff_witness :
  fst (fst (observedConfigCondition envSettled 0 newTB)) = true.
Proof.
  apply (proj2 (observed_config_converges_iff envSettled 0 newTB)).
  exists {| ObservedConfigRaw := rawModern |}, (objServing "VersionTLS13" expectedCiphers).
  split; [reflexivity|].
  split; [vm_compute; reflexivity|].
  split; [vm_compute; reflexivity|].
  split; [reflexivity|vm_compute; reflexivity].
Defined.

(** C4, as stated, fails on a config whose text spells the version key with
    an escape: the decoded serving section reports VersionTLS13 and the
    three ciphers, and the predicate does not converge, because the text
    does not contain the quoted key name. *)
Lemma escaped_key_is_not_observed :
  verifyCfg envEscaped 0 = inr {| ObservedConfigRaw := rawEscaped |} /\
  jsonUnmarshal envEscaped rawEscaped = inr (objServing "VersionTLS13" expectedCiphers) /\
  specReportsModern (objServing "VersionTLS13" expectedCiphers) = true /\
  fst (observedConfigCondition envEscaped 0 newTB) = (false, None).
Proof. vm_compute. repeat split. Qed.

(** ** The restoration predicate of the cleanup *)

Lemma restored_verdict env orig now t cfg obj v found :
  cleanupCfg env now = inr cfg ->
  jsonUnmarshal env (ObservedConfigRaw cfg) = inr obj ->
  NestedString obj ["servingInfo"; "minTLSVersion"] = (v, found, None) ->
  fst (restoredCondition env orig now t) = (restoredAccepts orig v found, None).
Proof.
  intros Hcfg Hobj Hv. unfold restoredCondition, restoredAccepts.
  rewrite Hcfg, Hobj, Hv.
  destruct orig as [p|].
  - destruct found, (String.eqb v "VersionTLS13"); reflexivity.
  - destruct found, (String.eqb v "VersionTLS12"), (String.eqb v ""); reflexivity.
Qed.

(** C6, as the code has it: once the config is fetched, decoded and the
    field read without error, the restoration predicate converges, when no
    original profile was saved, exactly when minTLSVersion is VersionTLS12 or
    absent or empty, and when an original profile was saved, exactly when
    minTLSVersion is present and different from VersionTLS13; it never
    converges otherwise. *)
Theorem restored_converges_iff env orig now t :
  fst (fst (restoredCondition env orig now t)) = true <->
  exists cfg obj v found,
    cleanupCfg env now = inr cfg /\
    jsonUnmarshal env (ObservedConfigRaw cfg) = inr obj /\
    NestedString obj ["servingInfo"; "minTLSVersion"] = (v, found, None) /\
    match orig with
    | None =>
        (found = true /\ v = "VersionTLS12") \/ found = false \/ v = ""
    | Some _ => found = true /\ v <> "VersionTLS13"
    end.
Proof.
  assert (Hacc : forall v found,
            restoredAccepts orig v found = true <->
            match orig with
            | None => (found = true /\ v = "VersionTLS12") \/ found = false \/ v = ""
            | Some _ => found = true /\ v <> "VersionTLS13"
            end).
  { intros v found. unfold restoredAccepts. destruct orig as [p|].
    - rewrite andb_true_iff, negb_true_iff, String.eqb_neq. reflexivity.
    - rewrite !orb_true_iff, andb_true_iff, negb_true_iff, !String.eqb_eq. tauto. }
  split.
  - intros H.
    destruct (cleanupCfg env now) as [e|cfg] eqn:Hcfg;
      [unfold restoredCondition in H; rewrite Hcfg in H; discriminate|].
    destruct (jsonUnmarshal env (ObservedConfigRaw cfg)) as [e|obj] eqn:Hobj;
      [unfold restoredCondition in H; rewrite Hcfg, Hobj in H; discriminate|].
    destruct (NestedString obj ["servingInfo"; "minTLSVersion"])
      as [[v found] [e|]] eqn:Hv;
      [unfold restoredCondition in H; rewrite Hcfg, Hobj, Hv in H; discriminate|].
    rewrite (restored_verdict env orig now t cfg obj v found Hcfg Hobj Hv) in H.
    exists cfg, obj, v, found. repeat split; try assumption. now apply Hacc.
  - intros (cfg & obj & v & found & Hcfg & Hobj & Hv & H).
    rewrite (restored_verdict env orig now t cfg obj v found Hcfg Hobj Hv).
    now apply Hacc.
Qed.

Lemma restored_converges_iff_witness :
  fst (fst (restoredCondition envNoVersion None 0 newTB)) = true /\
  fst (fst (restoredCondition envTLS11 (Some customTLS12) 0 newTB)) = true.
Proof.
  split.
  - apply (proj2 (restored_converges_iff envNoVersion None 0 newTB)).
    exists {| ObservedConfigRaw := "{}" |}, ∅, "", false.
    split; [reflexivity|]. split; [reflexivity|]. split; [reflexivity|].
    right. left. reflexivity.
  - apply (proj2 (restored_converges_iff envTLS11 (Some customTLS12) 0 newTB)).
    exists {| ObservedConfigRaw := rawTLS11 |}, (objServing "VersionTLS11" []),
      "VersionTLS11", true.
    split; [reflexivity|]. split; [reflexivity|]. split; [reflexivity|].
    split; [reflexivity|discriminate].
Defined.

(** C6, as stated, fails in both branches: with no original profile an
    observed VersionTLS11 differs from VersionTLS13 and is not accepted;
    with an original profile an absent version is not accepted. *)
Lemma restored_is_stricter_than_stated :
  (NestedString (objServing "VersionTLS11" []) ["servingInfo"; "minTLSVersion"]
   = ("VersionTLS11", true, None) /\
   specRestored "VersionTLS11" true = true /\
   fst (restoredCondition envTLS11 None 0 newTB) = (false, None)) /\
  (NestedString ∅ ["servingInfo"; "minTLSVersion"] = ("", false, None) /\
   specRestored "" false = true /\
   fst (restoredCondition envNoVersion (Some customTLS12) 0 newTB) = (false, None)).
Proof. vm_compute. repeat split. Qed.

(** C10: with a saved original profile the restoration predicate accepts
    every observed minTLSVersion other than VersionTLS13; its result is the
    same for every saved profile, so the observed value is never compared
    with the profile's own minimum version; and for the custom profile with
    minimum VersionTLS12 an observed VersionTLS11 reports convergence. *)
Theorem restored_ignores_original env p now t :
  (forall cfg obj v,
     cleanupCfg env now = inr cfg ->
     jsonUnmarshal env (ObservedConfigRaw cfg) = inr obj ->
     NestedString obj ["servingInfo"; "minTLSVersion"] = (v, true, None) ->
     v <> "VersionTLS13" ->
     fst (restoredCondition env (Some p) now t) = (true, None)) /\
  (forall p', restoredCondition env (Some p) now t
              = restoredCondition env (Some p') now t) /\
  (exists env' p' v m,
     profileMinTLSVersion p' = Some m /\ v <> m /\
     cleanupCfg env' 0 = inr {| ObservedConfigRaw := rawTLS11 |} /\
     jsonUnmarshal env' rawTLS11 = inr (objServing v []) /\
     NestedString (objServing v []) ["servingInfo"; "minTLSVersion"] = (v, true, None) /\
     fst (restoredCondition env' (Some p') 0 newTB) = (true, None)).
Proof.
  split; [|split].
  - intros cfg obj v Hcfg Hobj Hv Hne.
    rewrite (restored_verdict env (Some p) now t cfg obj v true Hcfg Hobj Hv).
    unfold restoredAccepts. apply String.eqb_neq in Hne. rewrite Hne. reflexivity.
  - intros p'. reflexivity.
  - exists envTLS11, customTLS12, "VersionTLS11", "VersionTLS12".
    repeat split; discriminate.
Qed.

Lemma restored_ignores_original_witness :
  profileMinTLSVersion customTLS12 = Some "VersionTLS12" /\
  fst (restoredCondition envTLS11 (Some customTLS12) 0 newTB) = (true, None).
Proof.
  split; [reflexivity|].
  apply (proj1 (restored_ignores_original envTLS11 customTLS12 0 newTB)
           {| ObservedConfigRaw := rawTLS11 |} (objServing "VersionTLS11" [])
           "VersionTLS11").
  - reflexivity.
  - reflexivity.
  - reflexivity.
  - discriminate.
Defined.

(** * Further properties of the scenario *)

(** ** The cluster-operator conditions *)

Lemma find_existsb {A} (f : A -> bool) l :
  existsb f l = match find f l with Some _ => true | None => false end.
Proof.
  induction l as [|a l IH]; simpl; [reflexivity|].
  destruct (f a); [reflexivity|exact IH].
Qed.

Lemma existsb_reordered {A} (f : A -> bool) (l l' : list A) :
  l ≡ₚ l' -> existsb f l = existsb f l'.
Proof.
  induction 1 as [|x l l' _ IH|x y l|l l' l'' _ IH1 _ IH2]; simpl.
  - reflexivity.
  - now rewrite IH.
  - destruct (f x), (f y); reflexivity.
  - now rewrite IH1.
Qed.

(** The three flags after the loop of lines 201-211. *)
Lemma scan_flags conds f :
  fold_left scanCondition conds f
  = mkFlags
      (isAvailable f || existsb (fun c => isType c OperatorAvailable ConditionTrue) conds)
      (isProgressing f
       && negb (existsb (fun c => isType c OperatorProgressing ConditionFalse) conds))
      (isDegraded f || existsb (fun c => isType c OperatorDegraded ConditionTrue) conds).
Proof.
  revert f. induction conds as [|c conds IH]; intros f; simpl.
  - destruct f as [a p d]. simpl.
    rewrite !orb_false_r, andb_true_r. reflexivity.
  - rewrite IH. unfold scanCondition.
    destruct f as [a p d].
    destruct (isType c OperatorAvailable ConditionTrue),
             (isType c OperatorProgressing ConditionFalse),
             (isType c OperatorDegraded ConditionTrue); simpl;
      rewrite ?orb_true_r, ?andb_false_r; reflexivity.
Qed.

(** The two flags after the loop of lines 95-102. *)
Lemma scanCleanup_flags conds f :
  fold_left scanCleanupCondition conds f
  = (fst f || existsb (fun c => isType c OperatorAvailable ConditionTrue) conds,
     snd f && negb (existsb (fun c => isType c OperatorProgressing ConditionFalse) conds)).
Proof.
  revert f. induction conds as [|c conds IH]; intros [a p]; simpl.
  - rewrite orb_false_r, andb_true_r. reflexivity.
  - rewrite IH. unfold scanCleanupCondition.
    destruct (isType c OperatorAvailable ConditionTrue),
             (isType c OperatorProgressing ConditionFalse); simpl;
      rewrite ?orb_true_r, ?andb_false_r; reflexivity.
Qed.

Lemma startedProgressing_verdict env now t co :
  progressingCO env now = inr co ->
  fst (startedProgressingCondition env now t)
  = (hasCondition OperatorProgressing ConditionTrue co, None).
Proof.
  intros Hco. unfold startedProgressingCondition, hasCondition.
  rewrite Hco, find_existsb.
  destruct (find _ (Conditions co)); reflexivity.
Qed.

Lemma reconciled_verdict env now t co :
  reconcileCO env now = inr co ->
  fst (reconciledCondition env now t)
  = (negb (hasCondition OperatorDegraded ConditionTrue co)
     && hasCondition OperatorAvailable ConditionTrue co
     && hasCondition OperatorProgressing ConditionFalse co, None).
Proof.
  intros Hco. unfold reconciledCondition, hasCondition, scanConditions.
  rewrite Hco, scan_flags. cbn [isAvailable isProgressing isDegraded orb andb].
  destruct (existsb (fun c => isType c OperatorDegraded ConditionTrue) (Conditions co)),
           (existsb (fun c => isType c OperatorAvailable ConditionTrue) (Conditions co)),
           (existsb (fun c => isType c OperatorProgressing ConditionFalse) (Conditions co));
    reflexivity.
Qed.

Lemma cleanupReconciled_verdict env now t co :
  cleanupCO env now = inr co ->
  fst (cleanupReconciledCondition env now t)
  = (hasCondition OperatorAvailable ConditionTrue co
     && hasCondition OperatorProgressing ConditionFalse co, None).
Proof.
  intros Hco. unfold cleanupReconciledCondition, hasCondition.
  rewrite Hco, scanCleanup_flags. cbn [fst snd orb andb].
  destruct (existsb (fun c => isType c OperatorAvailable ConditionTrue) (Conditions co)),
           (existsb (fun c => isType c OperatorProgressing ConditionFalse) (Conditions co));
    reflexivity.
Qed.

(** X1: the started-progressing predicate converges exactly when the Get
    succeeds and some condition has type Progressing and status True; on a
    successful Get without such a condition (an empty list included) it
    returns (false, nil) and leaves the handle untouched. *)
Theorem started_progressing_iff env now t :
  (fst (fst (startedProgressingCondition env now t)) = true <->
   exists co, progressingCO env now = inr co /\
              hasCondition OperatorProgressing ConditionTrue co = true) /\
  (forall co, progressingCO env now = inr co ->
     hasCondition OperatorProgressing ConditionTrue co = false ->
     startedProgressingCondition env now t = ((false, None), t)).
Proof.
  split.
  - destruct (progressingCO env now) as [e|co] eqn:Hco.
    + unfold startedProgressingCondition. rewrite Hco. simpl.
      split; [discriminate|intros (co & Hc & _); discriminate].
    + rewrite (startedProgressing_verdict env now t co Hco). simpl. split.
      * intros H. exists co. split; [reflexivity|exact H].
      * intros (co' & Hc & H). injection Hc as <-. exact H.
  - intros co Hco Hnone. unfold startedProgressingCondition. rewrite Hco.
    unfold hasCondition in Hnone. rewrite find_existsb in Hnone.
    destruct (find _ (Conditions co)); [discriminate|reflexivity].
Qed.

Lemma started_progressing_iff_witness :
  startedProgressingCondition envNoProgress 0 newTB = ((false, None), newTB).
Proof.
  apply (proj2 (started_progressing_iff envNoProgress 0 newTB) coSettled);
    reflexivity.
Defined.

(** X2: the reconciliation-complete predicate converges exactly when the
    Get succeeds, no condition is Degraded with status True, some condition
    is Available with status True and some condition is Progressing with
    status False; an operator that reports no condition of type Progressing
    therefore never converges. *)
Theorem reconciled_iff env now t :
  (fst (fst (reconciledCondition env now t)) = true <->
   exists co, reconcileCO env now = inr co /\
              hasCondition OperatorDegraded ConditionTrue co = false /\
              hasCondition OperatorAvailable ConditionTrue co = true /\
              hasCondition OperatorProgressing ConditionFalse co = true) /\
  (forall co, reconcileCO env now = inr co ->
     (forall c, In c (Conditions co) -> CondType c <> OperatorProgressing) ->
     fst (reconciledCondition env now t) = (false, None)).
Proof.
  split.
  - destruct (reconcileCO env now) as [e|co] eqn:Hco.
    + unfold reconciledCondition. rewrite Hco. simpl.
      split; [discriminate|intros (co & Hc & _); discriminate].
    + rewrite (reconciled_verdict env now t co Hco). cbn [fst]. split.
      * intros H. apply andb_true_iff in H. destruct H as [H Hp].
        apply andb_true_iff in H. destruct H as [Hd Ha].
        apply negb_true_iff in Hd. exists co. repeat split; assumption.
      * intros (co' & Hc & Hd & Ha & Hp). injection Hc as <-.
        rewrite Hd, Ha, Hp. reflexivity.
  - intros co Hco Hnone. rewrite (reconciled_verdict env now t co Hco).
    assert (Hp : hasCondition OperatorProgressing ConditionFalse co = false).
    { unfold hasCondition. apply not_true_is_false. intros H.
      apply existsb_exists in H. destruct H as (c & Hin & Hc).
      unfold isType in Hc. apply andb_true_iff in Hc. destruct Hc as [Hty _].
      apply String.eqb_eq in Hty. exact (Hnone c Hin Hty). }
    rewrite Hp, andb_false_r. reflexivity.
Qed.

Lemma reconciled_iff_witness :
  fst (reconciledCondition envNoProgressingCondition 0 newTB) = (false, None).
Proof.
  apply (proj2 (reconciled_iff envNoProgressingCondition 0 newTB) coNoProgressing).
  - reflexivity.
  - intros c [<-|[<-|[]]]; discriminate.
Defined.

(** X3: the verdicts of the three predicates over the cluster operator do
    not depend on the order in which the operator lists its conditions. *)
Theorem verdicts_ignore_condition_order env env' now t co co' :
  reordered co co' ->
  (progressingCO env now = inr co -> progressingCO env' now = inr co' ->
   fst (startedProgressingCondition env now t)
   = fst (startedProgressingCondition env' now t)) /\
  (reconcileCO env now = inr co -> reconcileCO env' now = inr co' ->
   fst (reconciledCondition env now t) = fst (reconciledCondition env' now t)) /\
  (cleanupCO env now = inr co -> cleanupCO env' now = inr co' ->
   fst (cleanupReconciledCondition env now t)
   = fst (cleanupReconciledCondition env' now t)).
Proof.
  intros Hperm.
  assert (Hsame : forall ty st, hasCondition ty st co = hasCondition ty st co').
  { intros ty st. unfold hasCondition. apply existsb_reordered, Hperm. }
  split; [|split]; intros Hco Hco'.
  - rewrite (startedProgressing_verdict env now t co Hco),
      (startedProgressing_verdict env' now t co' Hco'), Hsame. reflexivity.
  - rewrite (reconciled_verdict env now t co Hco),
      (reconciled_verdict env' now t co' Hco'), !Hsame. reflexivity.
  - rewrite (cleanupReconciled_verdict env now t co Hco),
      (cleanupReconciled_verdict env' now t co' Hco'), !Hsame. reflexivity.
Qed.

Lemma verdicts_ignore_condition_order_witness :
  fst (reconciledCondition envSettled 0 newTB)
  = fst (reconciledCondition envSettledReversed 0 newTB).
Proof.
  apply (proj1 (proj2 (verdicts_ignore_condition_order envSettled envSettledReversed
                         0 newTB coSettled coSettledReversed
                         (Permutation_rev (Conditions coSettled))))).
  - reflexivity.
  - reflexivity.
Defined.

(** X4: on the same cluster operator the cleanup reconciliation predicate
    converges whenever the primary one does, and it also converges on an
    operator that is available, not progressing and degraded, on which the
    primary one returns (false, nil). *)
Theorem cleanup_reconciled_ignores_degraded env now t t' co :
  reconcileCO env now = inr co -> cleanupCO env now = inr co ->
  (fst (fst (reconciledCondition env now t)) = true ->
   fst (fst (cleanupReconciledCondition env now t')) = true) /\
  (hasCondition OperatorAvailable ConditionTrue co = true ->
   hasCondition OperatorProgressing ConditionFalse co = true ->
   hasCondition OperatorDegraded ConditionTrue co = true ->
   fst (cleanupReconciledCondition env now t') = (true, None) /\
   fst (reconciledCondition env now t) = (false, None)).
Proof.
  intros Hco Hco'.
  rewrite (reconciled_verdict env now t co Hco),
    (cleanupReconciled_verdict env now t' co Hco'). cbn [fst]. split.
  - intros H. apply andb_true_iff in H. destruct H as [H Hp].
    apply andb_true_iff in H. destruct H as [_ Ha]. rewrite Ha, Hp. reflexivity.
  - intros -> -> ->. split; reflexivity.
Qed.

Lemma cleanup_reconciled_ignores_degraded_witness :
  fst (cleanupReconciledCondition envDegraded 0 newTB) = (true, None) /\
  fst (reconciledCondition envDegraded 0 newTB) = (false, None).
Proof.
  apply (proj2 (cleanup_reconciled_ignores_degraded envDegraded 0 newTB newTB
                  coDegraded eq_refl eq_refl)); reflexivity.
Defined.

(** ** The two verification predicates against each other *)

(** A config on which the observed-config predicate converges decodes to a
    serving section that reports VersionTLS13. *)
Lemma observed_reports_modern env now t cfg :
  verifyCfg env now = inr cfg ->
  fst (fst (observedConfigCondition env now t)) = true ->
  exists obj,
    jsonUnmarshal env (ObservedConfigRaw cfg) = inr obj /\
    NestedString obj ["servingInfo"; "minTLSVersion"] = ("VersionTLS13", true, None).
Proof.
  intros Hcfg. unfold observedConfigCondition. rewrite Hcfg.
  destruct (negb (Contains (ObservedConfigRaw cfg) (quoted "minTLSVersion"))
            || negb (Contains (ObservedConfigRaw cfg) (quoted "cipherSuites")));
    [discriminate|].
  destruct (jsonUnmarshal env (ObservedConfigRaw cfg)) as [e|obj]; [discriminate|].
  destruct (NestedMap obj ["servingInfo"]) as [[m fm] em].
  destruct (isSome em || negb fm); [discriminate|].
  destruct (NestedString obj ["servingInfo"; "minTLSVersion"]) as [[v fv] ev] eqn:Hv.
  destruct (isSome ev || negb fv || String.eqb v "") eqn:Hset; [discriminate|].
  destruct (negb (String.eqb v "VersionTLS13")) eqn:Hmodern; [discriminate|].
  intros _. exists obj. split; [reflexivity|]. split_bools.
  apply String.eqb_eq in Hmodern. rewrite Hv. destruct fv; [|discriminate].
  now subst v.
Qed.

(** X5: an observed config that satisfies the Modern verification predicate
    is never accepted by the restoration predicate of the cleanup, whatever
    profile was saved. *)
Theorem modern_config_is_not_restored env orig now now' t t' cfg :
  verifyCfg env now = inr cfg ->
  cleanupCfg env now' = inr cfg ->
  fst (fst (observedConfigCondition env now t)) = true ->
  fst (restoredCondition env orig now' t') = (false, None).
Proof.
  intros Hcfg Hcfg' Hobs.
  destruct (observed_reports_modern env now t cfg Hcfg Hobs) as (obj & Hobj & Hv).
  rewrite (restored_verdict env orig now' t' cfg obj _ _ Hcfg' Hobj Hv).
  destruct orig; reflexivity.
Qed.

Lemma modern_config_is_not_restored_witness :
  fst (restoredCondition envStillModern (Some modernProfile) 0 newTB) = (false, None).
Proof.
  apply (modern_config_is_not_restored envStillModern (Some modernProfile) 0 0
           newTB newTB {| ObservedConfigRaw := rawModern |}).
  - reflexivity.
  - reflexivity.
  - vm_compute. reflexivity.
Defined.

(** X6: while the observed config keeps reporting VersionTLS13, the
    restoration session of the cleanup never converges: it runs to its
    deadline of two minutes and ends with the deadline-exceeded error, for
    every saved profile, a saved Modern profile included. *)
Theorem restoration_of_modern_times_out env orig :
  (forall now, exists cfg obj,
     cleanupCfg env now = inr cfg /\
     jsonUnmarshal env (ObservedConfigRaw cfg) = inr obj /\
     NestedString obj ["servingInfo"; "minTLSVersion"] = ("VersionTLS13", true, None)) ->
  forall t, let s := runSession env orig Restored t in
    phase s = TimedOut /\ sessionErr (phase s) = Some DeadlineExceeded /\
    elapsed s = 2 * Minute.
Proof.
  intros Hmodern t s.
  destruct (poll_always_false (5 * Second) (2 * Minute)
              (restoredCondition env orig) true t) as [Hp He];
    try reflexivity.
  - intros now w. destruct (Hmodern now) as (cfg & obj & Hcfg & Hobj & Hv).
    rewrite (restored_verdict env orig now w cfg obj _ _ Hcfg Hobj Hv).
    destruct orig; reflexivity.
  - rewrite (site_restored env orig) in Hp, He. fold s in Hp, He.
    rewrite Hp. repeat split. exact He.
Qed.

Lemma restoration_of_modern_times_out_witness :
  phase (runSession envStillModern (Some modernProfile) Restored newTB) = TimedOut.
Proof.
  apply (restoration_of_modern_times_out envStillModern (Some modernProfile)).
  intros now.
  exists {| ObservedConfigRaw := rawModern |}, (objServing "VersionTLS13" expectedCiphers).
  split; [reflexivity|split; reflexivity].
Defined.

(** ** The scenario: setup and cleanup *)





(** ** The Ginkgo variant against the first variant *)

(** Two sessions over different worlds run alike while their conditions
    give the same verdicts. *)
Lemma run_sameVerdict {W W'} interval timeout
    (c : ConditionFunc W) (c' : ConditionFunc W') n
    (s : Session W) (s' : Session W') :
  (forall now w w', fst (c now w) = fst (c' now w')) ->
  phase s = phase s' /\ elapsed s = elapsed s' /\ checks s = checks s' ->
  phase (run interval timeout c n s) = phase (run interval timeout c' n s') /\
  elapsed (run interval timeout c n s) = elapsed (run interval timeout c' n s') /\
  checks (run interval timeout c n s) = checks (run interval timeout c' n s').
Proof.
  intros Hc. revert s s'. induction n as [|n IH]; intros s s' Hs; simpl; [exact Hs|].
  apply IH. destruct Hs as (Hp & He & Hk). unfold step.
  rewrite <- Hp, <- He, <- Hk.
  destruct (phase s) eqn:Hps; simpl; rewrite <- ?Hp, <- ?He, <- ?Hk; auto.
  - destruct (timeout <=? elapsed s + interval); simpl; auto.
  - destruct (timeout <=? elapsed s); simpl; auto.
    specialize (Hc (elapsed s) (world s) (world s')).
    destruct (c (elapsed s) (world s)) as [[ok e] w1].
    destruct (c' (elapsed s) (world s')) as [[ok' e'] w2].
    simpl in Hc. injection Hc as <- <-.
    destruct e; [|destruct ok]; simpl; auto.
Qed.

Lemma poll_sameVerdict {W W'} interval timeout immediate
    (c : ConditionFunc W) (c' : ConditionFunc W') (w : W) (w' : W') :
  (forall now w w', fst (c now w) = fst (c' now w')) ->
  phase (PollUntilContextTimeout interval timeout immediate c w)
  = phase (PollUntilContextTimeout interval timeout immediate c' w') /\
  elapsed (PollUntilContextTimeout interval timeout immediate c w)
  = elapsed (PollUntilContextTimeout interval timeout immediate c' w') /\
  checks (PollUntilContextTimeout interval timeout immediate c w)
  = checks (PollUntilContextTimeout interval timeout immediate c' w').
Proof.
  intros Hc. unfold PollUntilContextTimeout.
  destruct ((interval <=? 0) || (timeout <=? 0)); [repeat split|].
  apply run_sameVerdict; [exact Hc|repeat split].
Qed.

Ltac break_ginkgo_condition :=
  unfold Ginkgo.sessionCondition, Ginkgo.startedProgressingCondition,
    Ginkgo.reconciledCondition, Ginkgo.observedConfigCondition,
    Ginkgo.cleanupReconciledCondition, Ginkgo.restoredCondition;
  repeat break_match; simpl; try reflexivity; try discriminate.

Lemma ginkgo_verdict env orig k now t g :
  fst (Ginkgo.sessionCondition env orig k now g)
  = fst (sessionCondition env orig k now t).
Proof.
  destruct k;
    unfold sessionCondition, startedProgressingCondition, reconciledCondition,
      observedConfigCondition, cleanupReconciledCondition, restoredCondition;
    break_ginkgo_condition.
Qed.

Lemma onlyReported_refl g : Ginkgo.onlyReported g g.
Proof. repeat split. exists []. symmetry. apply app_nil_r. Qed.

Lemma onlyReported_trans g g1 g2 :
  Ginkgo.onlyReported g g1 -> Ginkgo.onlyReported g1 g2 -> Ginkgo.onlyReported g g2.
Proof.
  intros (Hf1 & Hc1 & l1 & Hl1) (Hf2 & Hc2 & l2 & Hl2).
  repeat split; try congruence.
  exists (l1 ++ l2). rewrite Hl2, Hl1. symmetry. apply app_assoc.
Qed.

Lemma onlyReported_emit e g g' :
  Ginkgo.onlyReported g g' -> Ginkgo.onlyReported g (Ginkgo.emit e g').
Proof.
  intros H. apply (onlyReported_trans _ _ _ H).
  repeat split. exists [e]. reflexivity.
Qed.

Ltac reported :=
  repeat first [ apply onlyReported_refl
               | apply (onlyReported_emit (Ginkgo.EBy _))
               | apply (onlyReported_emit (Ginkgo.EInfo _ _))
               | apply (onlyReported_emit (Ginkgo.EError _ _)) ].

Lemma ginkgo_condition_only_reports env orig k now g :
  Ginkgo.onlyReported g (snd (Ginkgo.sessionCondition env orig k now g)).
Proof.
  destruct k; break_ginkgo_condition;
    unfold Ginkgo.Info, Ginkgo.LogError, Ginkgo.By; reported.
Qed.

Lemma ginkgo_runSession_only_reports env orig k g :
  Ginkgo.onlyReported g (world (Ginkgo.runSession env orig k g)).
Proof.
  unfold Ginkgo.runSession.
  apply (poll_world_invariant _ _ _ (Ginkgo.onlyReported g)).
  - intros now w H.
    apply (onlyReported_trans _ _ _ H), ginkgo_condition_only_reports.
  - apply onlyReported_refl.
Qed.

Lemma ginkgo_session_outcome env orig k g t :
  phase (Ginkgo.runSession env orig k g) = phase (runSession env orig k t) /\
  elapsed (Ginkgo.runSession env orig k g) = elapsed (runSession env orig k t) /\
  checks (Ginkgo.runSession env orig k g) = checks (runSession env orig k t).
Proof.
  unfold Ginkgo.runSession, runSession. apply poll_sameVerdict.
  intros now w w'. apply ginkgo_verdict.
Qed.

Lemma ginkgo_site_startedProgressing env orig g :
  PollUntilContextTimeout (5 * Second) (5 * Minute) true
    (Ginkgo.startedProgressingCondition env) g
  = Ginkgo.runSession env orig StartedProgressing g.
Proof.
  unfold Ginkgo.runSession.
  cbn [sessionInterval sessionTimeout Ginkgo.sessionCondition]. reflexivity.
Qed.

Lemma ginkgo_site_reconciled env orig g :
  PollUntilContextTimeout (10 * Second) (15 * Minute) true
    (Ginkgo.reconciledCondition env) g
  = Ginkgo.runSession env orig Reconciled g.
Proof.
  unfold Ginkgo.runSession.
  cbn [sessionInterval sessionTimeout Ginkgo.sessionCondition]. reflexivity.
Qed.

Lemma ginkgo_site_observedConfig env orig g :
  PollUntilContextTimeout (5 * Second) (2 * Minute) true
    (Ginkgo.observedConfigCondition env) g
  = Ginkgo.runSession env orig ObservedConfig g.
Proof.
  unfold Ginkgo.runSession.
  cbn [sessionInterval sessionTimeout Ginkgo.sessionCondition]. reflexivity.
Qed.

Lemma ginkgo_site_cleanupReconciled env orig g :
  PollUntilContextTimeout (10 * Second) (10 * Minute) true
    (Ginkgo.cleanupReconciledCondition env) g
  = Ginkgo.runSession env orig CleanupReconciled g.
Proof.
  unfold Ginkgo.runSession.
  cbn [sessionInterval sessionTimeout Ginkgo.sessionCondition]. reflexivity.
Qed.

Lemma ginkgo_site_restored env orig g :
  PollUntilContextTimeout (5 * Second) (2 * Minute) true
    (Ginkgo.restoredCondition env orig) g
  = Ginkgo.runSession env orig Restored g.
Proof.
  unfold Ginkgo.runSession.
  cbn [sessionInterval sessionTimeout Ginkgo.sessionCondition]. reflexivity.
Qed.

(** The deferred cleanup only reports. *)
Lemma ginkgo_restore_only_reports env orig g :
  Ginkgo.onlyReported g (Ginkgo.restoreTLSProfile env orig g).
Proof.
  unfold Ginkgo.restoreTLSProfile, Ginkgo.By, Ginkgo.LogError.
  destruct (getAPIServerCleanup env) as [e|apiServer]; [reported|].
  destruct (updateAPIServerCleanup env _) as [e|]; [reported|].
  rewrite (ginkgo_site_cleanupReconciled env orig).
  match goal with
  | |- context [Ginkgo.runSession env orig CleanupReconciled ?g1] =>
      assert (H1 : Ginkgo.onlyReported g
                     (world (Ginkgo.runSession env orig CleanupReconciled g1)))
        by (eapply onlyReported_trans; [|apply ginkgo_runSession_only_reports];
            reported);
      generalize dependent (Ginkgo.runSession env orig CleanupReconciled g1)
  end.
  intros s1 H1.
  destruct (sessionErr (phase s1)) as [e|]; [apply onlyReported_emit; exact H1|].
  rewrite (ginkgo_site_restored env orig).
  match goal with
  | |- context [Ginkgo.runSession env orig Restored ?g2] =>
      assert (H2 : Ginkgo.onlyReported g
                     (world (Ginkgo.runSession env orig Restored g2)))
        by (eapply onlyReported_trans; [|apply ginkgo_runSession_only_reports];
            apply onlyReported_emit; exact H1);
      generalize dependent (Ginkgo.runSession env orig Restored g2)
  end.
  intros s2 H2.
  destruct (sessionErr (phase s2)) as [e|]; [apply onlyReported_emit|]; exact H2.
Qed.

Lemma ginkgo_runCleanups_only_reports env fs g :
  Ginkgo.onlyReported g (fold_left (fun g f => Ginkgo.runCleanup env f g) fs g).
Proof.
  revert g. induction fs as [|f fs IH]; intros g; simpl.
  - apply onlyReported_refl.
  - eapply onlyReported_trans; [|apply IH].
    destruct f as [orig]. apply ginkgo_restore_only_reports.
Qed.

(** The equations of the spec monad. *)
Lemma gbind_gret {A B} (a : A) (k : A -> Ginkgo.G B) g :
  Ginkgo.gbind (Ginkgo.gret a) k g = k a g.
Proof. reflexivity. Qed.

Lemma gbind_assoc {A B C} (c : Ginkgo.G A) (k1 : A -> Ginkgo.G B)
    (k2 : B -> Ginkgo.G C) g :
  Ginkgo.gbind (Ginkgo.gbind c k1) k2 g
  = Ginkgo.gbind c (fun a => Ginkgo.gbind (k1 a) k2) g.
Proof. unfold Ginkgo.gbind. destruct (c g) as [[a|] g']; reflexivity. Qed.

Lemma gbind_glift {B} f (k : unit -> Ginkgo.G B) g :
  Ginkgo.gbind (Ginkgo.glift f) k g = k tt (f g).
Proof. reflexivity. Qed.

Lemma gbind_expect_nil {B} msg (k : unit -> Ginkgo.G B) g :
  Ginkgo.gbind (Ginkgo.expectNoError None msg) k g = k tt g.
Proof. reflexivity. Qed.

Lemma gbind_expect_err {B} e msg (k : unit -> Ginkgo.G B) g :
  Ginkgo.gbind (Ginkgo.expectNoError (Some e) msg) k g
  = (None, Ginkgo.mkSpec (Ginkgo.report g) (Ginkgo.specFailures g ++ [(msg, e)])
             (Ginkgo.deferred g)).
Proof. reflexivity. Qed.

Lemma gbind_poll {B} interval timeout immediate condition
    (k : option error -> Ginkgo.G B) g :
  Ginkgo.gbind (Ginkgo.poll interval timeout immediate condition) k g
  = k (sessionErr (phase (PollUntilContextTimeout interval timeout immediate condition g)))
      (world (PollUntilContextTimeout interval timeout immediate condition g)).
Proof. reflexivity. Qed.

(** Replaces the session of call site [k] of the spec by a variable that is
    known to only report and to end as the session of the first variant run
    from a fresh handle. *)
Ltac abstract_ginkgo_session env k s Hf Hc Hp :=
  match goal with
  | |- context [Ginkgo.runSession env None k ?g] =>
      destruct (ginkgo_runSession_only_reports env None k g) as (Hf & Hc & _);
      destruct (ginkgo_session_outcome env None k g newTB) as (Hp & _ & _);
      generalize dependent (Ginkgo.runSession env None k g); intros s Hf Hc Hp
  end.

Lemma ginkgo_testBody_records env :
  Ginkgo.specFailures (snd (Ginkgo.testBody env Ginkgo.newSpec)) = expectedFailures env /\
  Ginkgo.deferred (snd (Ginkgo.testBody env Ginkgo.newSpec))
  = match setupFailure env, getAPIServer env with
    | None, inr apiServer => [RestoreTLSProfile (SpecTLSSecurityProfile apiServer)]
    | _, _ => []
    end.
Proof.
  unfold Ginkgo.testBody, expectedFailures, setupFailure, sessionOutcome,
    Ginkgo.MustNewClientset, Ginkgo.MustEnsureClusterOperatorStatusIsSet.
  destruct (newClientsetErr env) as [e|];
    [rewrite gbind_expect_err; split; reflexivity|].
  rewrite gbind_expect_nil.
  destruct (ensureStatusErr env) as [e|];
    [rewrite gbind_expect_err; split; reflexivity|].
  rewrite gbind_expect_nil.
  unfold Ginkgo.expectValue.
  destruct (getAPIServer env) as [e|apiServer].
  { rewrite gbind_assoc, gbind_expect_err. split; reflexivity. }
  rewrite gbind_assoc, gbind_expect_nil, gbind_gret.
  destruct (updateAPIServer env _) as [e|];
    [rewrite gbind_expect_err; split; reflexivity|].
  rewrite gbind_expect_nil, !gbind_glift, gbind_poll.
  rewrite (ginkgo_site_startedProgressing env None).
  abstract_ginkgo_session env StartedProgressing s1 Hf1 Hc1 Hp1.
  unfold Ginkgo.By, Ginkgo.Info in *.
  cbn [Ginkgo.emit Ginkgo.DeferCleanup Ginkgo.specFailures Ginkgo.deferred
         Ginkgo.newSpec] in Hf1, Hc1.
  clear Hp1.
  destruct (sessionErr (phase s1)) as [e|];
    [rewrite gbind_glift|rewrite gbind_gret]; rewrite gbind_glift, gbind_poll;
    rewrite (ginkgo_site_reconciled env None);
    abstract_ginkgo_session env Reconciled s2 Hf2 Hc2 Hp2;
    cbn [Ginkgo.emit Ginkgo.specFailures Ginkgo.deferred] in Hf2, Hc2;
    rewrite Hf1 in Hf2; rewrite Hc1 in Hc2; rewrite <- Hp2;
    (destruct (sessionErr (phase s2)) as [e2|];
     [rewrite gbind_expect_err; cbn [snd Ginkgo.specFailures Ginkgo.deferred];
      rewrite Hf2, Hc2; split; reflexivity|]);
    rewrite gbind_expect_nil, gbind_glift, gbind_poll;
    rewrite (ginkgo_site_observedConfig env None);
    abstract_ginkgo_session env ObservedConfig s3 Hf3 Hc3 Hp3;
    cbn [Ginkgo.emit Ginkgo.specFailures Ginkgo.deferred] in Hf3, Hc3;
    rewrite Hf2 in Hf3; rewrite Hc2 in Hc3; rewrite <- Hp3;
    unfold Ginkgo.expectNoError;
    destruct (sessionErr (phase s3)) as [e3|];
    cbn [snd Ginkgo.specFailures Ginkgo.deferred];
    rewrite ?Hf3, ?Hc3; split; reflexivity.
Qed.

(** X9: each of the five poll conditions of the Ginkgo variant returns, on
    the same answers of the cluster and of the decoder, the same verdict as
    the condition of the first variant, and like it never an error. *)
Theorem ginkgo_conditions_agree env orig now t g :
  fst (Ginkgo.startedProgressingCondition env now g)
  = fst (startedProgressingCondition env now t) /\
  fst (Ginkgo.reconciledCondition env now g)
  = fst (reconciledCondition env now t) /\
  fst (Ginkgo.observedConfigCondition env now g)
  = fst (observedConfigCondition env now t) /\
  fst (Ginkgo.cleanupReconciledCondition env now g)
  = fst (cleanupReconciledCondition env now t) /\
  fst (Ginkgo.restoredCondition env orig now g)
  = fst (restoredCondition env orig now t) /\
  (forall k, snd (fst (Ginkgo.sessionCondition env orig k now g)) = None).
Proof.
  repeat split.
  - apply (ginkgo_verdict env orig StartedProgressing).
  - apply (ginkgo_verdict env orig Reconciled).
  - apply (ginkgo_verdict env orig ObservedConfig).
  - apply (ginkgo_verdict env orig CleanupReconciled).
  - apply (ginkgo_verdict env orig Restored).
  - intros k. rewrite (ginkgo_verdict env orig k now t g).
    apply condition_no_error.
Qed.

(** X10: the Ginkgo variant of the scenario fails exactly as the first
    variant: on the same environment every poll session ends in the same
    phase after the same time and number of checks, the spec records the
    same failures with the same messages, and it defers the same cleanup. *)
Theorem ginkgo_scenario_fails_alike env :
  (forall orig k g t,
     phase (Ginkgo.runSession env orig k g) = phase (runSession env orig k t) /\
     elapsed (Ginkgo.runSession env orig k g) = elapsed (runSession env orig k t) /\
     checks (Ginkgo.runSession env orig k g) = checks (runSession env orig k t)) /\
  Ginkgo.specFailures (Ginkgo.testTLSSecurityProfilePropagation env)
  = failures (testTLSSecurityProfilePropagation env) /\
  Ginkgo.deferred (Ginkgo.testTLSSecurityProfilePropagation env)
  = cleanups (testTLSSecurityProfilePropagation env).
Proof.
  split; [intros orig k g t; apply ginkgo_session_outcome|].
  unfold Ginkgo.testTLSSecurityProfilePropagation, Ginkgo.runCleanups,
    testTLSSecurityProfilePropagation, runCleanups.
  destruct (ginkgo_runCleanups_only_reports env
              (Ginkgo.deferred (snd (Ginkgo.testBody env Ginkgo.newSpec)))
              (snd (Ginkgo.testBody env Ginkgo.newSpec))) as (Hf & Hc & _).
  destruct (runCleanups_only_logs env (cleanups (snd (testBody env newTB)))
              (snd (testBody env newTB))) as (Hf' & Hc' & _).
  rewrite Hf, Hc, Hf', Hc'.
  destruct (ginkgo_testBody_records env) as [-> ->].
  destruct (testBody_records env) as [-> ->]. split; reflexivity.
Qed.

(** X11: the deferred cleanup of the Ginkgo variant never fails the spec:
    whatever the cluster answers it only appends entries to the report, and
    the failures of the spec are those of its body. *)
Theorem ginkgo_cleanup_never_fails env :
  (forall orig g,
     Ginkgo.specFailures (Ginkgo.restoreTLSProfile env orig g) = Ginkgo.specFailures g /\
     exists es, Ginkgo.report (Ginkgo.restoreTLSProfile env orig g)
                = Ginkgo.report g ++ es) /\
  Ginkgo.specFailures (Ginkgo.testTLSSecurityProfilePropagation env)
  = Ginkgo.specFailures (snd (Ginkgo.testBody env Ginkgo.newSpec)).
Proof.
  split.
  - intros orig g.
    destruct (ginkgo_restore_only_reports env orig g) as (Hf & _ & Hl).
    split; assumption.
  - unfold Ginkgo.testTLSSecurityProfilePropagation, Ginkgo.runCleanups.
    destruct (ginkgo_runCleanups_only_reports env
                (Ginkgo.deferred (snd (Ginkgo.testBody env Ginkgo.newSpec)))
                (snd (Ginkgo.testBody env Ginkgo.newSpec))) as (Hf & _ & _).
    exact Hf.
Qed.

(** ** The serial suite *)






